(** * A shallow embedding of [pigan/components/generator.py]

    The [Generator] class orchestrates two Keras [Sequential] networks, a noise
    sampler, a PDE object, a boundary-condition object and an optimizer.  The
    embedding keeps the orchestration as it is written: every method is a
    program in a state-and-exception monad over a runtime that holds the
    [tf.Variable] store, the collaborators' states, the file system and the
    active gradient tape.  Scalar arithmetic (floating point in the original)
    and the collaborators whose classes live outside this module are
    interfaces (type classes); everything proved below holds for every
    implementation of them. *)

From stdpp Require Import base option list gmap strings.
From Stdlib Require Import ZArith Lia.

Set Default Proof Using "Type".
Open Scope nat_scope.

(** ** Scalars *)

(** The element type of tensors with the operations the module uses.  No
    algebraic law is assumed. *)
Class Arith := {
  Scalar : Type;
  szero : Scalar;
  sadd : Scalar → Scalar → Scalar;
  smul : Scalar → Scalar → Scalar;
  sneg : Scalar → Scalar;
  sdiv : Scalar → Scalar → Scalar;
  sofnat : nat → Scalar;
  stanh : Scalar → Scalar
}.

(** ** Exceptions and results *)

Inductive exn :=
| KeyError          (* missing dictionary key *)
| IndexError        (* [shape[0]] of a rank-0 tensor *)
| InvalidArgument   (* a TensorFlow op rejected its operands *)
| ValueError        (* Keras rejected an input or a layer *)
| RuntimeError      (* tape used outside its life time *)
| OSError.          (* file missing *)

Inductive result (A : Type) :=
| Ok (a : A)
| Raise (e : exn).
Arguments Ok {A} a.
Arguments Raise {A} e.

Definition is_Ok {A} (r : result A) : Prop :=
  match r with Ok _ => True | Raise _ => False end.

(** ** Tensors *)

Section Tensors.
Context `{Arith}.

(** A tensor is its shape and its elements in row-major order. *)
Record Tensor := mkTensor { shape : list nat; data : list Scalar }.

Definition numel (sh : list nat) : nat := foldr Nat.mul 1 sh.

(** The [i]-th block of [c] consecutive elements. *)
Definition chunk (c i : nat) (l : list Scalar) : list Scalar :=
  take c (drop (i * c) l).

Definition scalar_tensor (x : Scalar) : Tensor := mkTensor [] [x].

(** [X.shape[0]] *)
Definition shape0 (t : Tensor) : result nat :=
  match shape t with
  | n :: _ => Ok n
  | [] => Raise IndexError
  end.

(** [tf.tile(t, multiples)]: one multiple per axis. *)
Fixpoint tile_data (sh mult : list nat) (l : list Scalar) : list Scalar :=
  match sh, mult with
  | d :: sh', m :: mult' =>
      let inner := numel sh' in
      let once := flat_map (λ i, tile_data sh' mult' (chunk inner i l)) (seq 0 d) in
      concat (replicate m once)
  | _, _ => l
  end.

Definition tf_tile (t : Tensor) (multiples : list nat) : result Tensor :=
  if decide (length multiples = length (shape t)) then
    Ok (mkTensor (zip_with Nat.mul (shape t) multiples)
                 (tile_data (shape t) multiples (data t)))
  else Raise InvalidArgument.

(** [tf.concat([a, b], axis=1)]: the operands agree on every axis but the
    second one. *)
Definition tf_concat1 (a b : Tensor) : result Tensor :=
  match shape a, shape b with
  | r :: ca :: resta, r' :: cb :: restb =>
      if decide (r = r' ∧ resta = restb) then
        let wa := ca * numel resta in
        let wb := cb * numel restb in
        Ok (mkTensor (r :: (ca + cb) :: resta)
              (flat_map (λ i, chunk wa i (data a) ++ chunk wb i (data b)) (seq 0 r)))
      else Raise InvalidArgument
  | _, _ => Raise InvalidArgument
  end.

(** [tf.reshape(t, dims)]: at most one entry of [dims] is [-1] and stands for
    the dimension that keeps the number of elements; it cannot be inferred
    when the other entries multiply to zero. *)
Definition known_dims (dims : list Z) : list Z := filter (λ z, z ≠ (-1)%Z) dims.

Definition dims_product (dims : list Z) : nat :=
  foldr (λ z acc, Z.to_nat z * acc) 1 (known_dims dims).

Definition tf_reshape (t : Tensor) (dims : list Z) : result Tensor :=
  let n := numel (shape t) in
  let p := dims_product dims in
  let unknown := length dims - length (known_dims dims) in
  if decide (Forall (λ z, (-1 ≤ z)%Z) dims) then
    match unknown with
    | 0 => if decide (p = n) then Ok (mkTensor (Z.to_nat <$> dims) (data t))
           else Raise InvalidArgument
    | 1 => if decide (0 < p ∧ n `mod` p = 0) then
             Ok (mkTensor ((λ z, if decide (z = (-1)%Z) then n `div` p else Z.to_nat z) <$> dims)
                          (data t))
           else Raise InvalidArgument
    | _ => Raise InvalidArgument
    end
  else Raise InvalidArgument.

(** [tf.reduce_mean(t)] over all axes and unary minus. *)
Definition tf_reduce_mean (t : Tensor) : Tensor :=
  scalar_tensor (sdiv (foldr sadd szero (data t)) (sofnat (length (data t)))).

Definition tf_neg (t : Tensor) : Tensor := mkTensor (shape t) (sneg <$> data t).

(** [a + b] with NumPy broadcasting: shapes are aligned on the right and an
    axis of length one is stretched. *)
Fixpoint pad_shape (n : nat) (sh : list nat) : list nat :=
  match n with 0 => sh | S n' => 1 :: pad_shape n' sh end.

Fixpoint broadcast_shape (sa sb : list nat) : option (list nat) :=
  match sa, sb with
  | [], [] => Some []
  | x :: sa', y :: sb' =>
      if decide (x = y ∨ y = 1) then (x ::.) <$> broadcast_shape sa' sb'
      else if decide (x = 1) then (y ::.) <$> broadcast_shape sa' sb'
      else None
  | _, _ => None
  end.

Fixpoint broadcast_add (sa sb : list nat) (da db : list Scalar) : list Scalar :=
  match sa, sb with
  | x :: sa', y :: sb' =>
      flat_map (λ i, broadcast_add sa' sb'
                       (chunk (numel sa') (if decide (x = 1) then 0 else i) da)
                       (chunk (numel sb') (if decide (y = 1) then 0 else i) db))
               (seq 0 (if decide (x = 1) then y else x))
  | _, _ => zip_with sadd da db
  end.

Definition tf_add (a b : Tensor) : result Tensor :=
  let r := length (shape a) `max` length (shape b) in
  let sa := pad_shape (r - length (shape a)) (shape a) in
  let sb := pad_shape (r - length (shape b)) (shape b) in
  match broadcast_shape sa sb with
  | Some s => Ok (mkTensor s (broadcast_add sa sb (data a) (data b)))
  | None => Raise InvalidArgument
  end.

(** Elementwise [tanh]. *)
Definition tf_tanh (t : Tensor) : Tensor := mkTensor (shape t) (stanh <$> data t).

(** [Flatten]: keeps the batch axis and merges the others. *)
Definition flatten (t : Tensor) : result Tensor :=
  match shape t with
  | b :: rest => Ok (mkTensor [b; numel rest] (data t))
  | [] => Raise ValueError
  end.

(** [Dense]: [x @ kernel + bias] on the last axis of [x]. *)
Definition dot (u v : list Scalar) : Scalar :=
  foldr sadd szero (zip_with smul u v).

Definition column (k units j : nat) (w : list Scalar) : list Scalar :=
  (λ i, nth (i * units + j) w szero) <$> seq 0 k.

Definition dense (x kernel bias : Tensor) : result Tensor :=
  match reverse (shape x), shape kernel, shape bias with
  | k :: lead, [k'; units], [units'] =>
      if decide (k = k' ∧ units = units') then
        let rows := numel lead in
        let columns := (λ j, column k units j (data kernel)) <$> seq 0 units in
        Ok (mkTensor (reverse lead ++ [units])
              (flat_map (λ i,
                 zip_with (λ col b, sadd (dot (chunk k i (data x)) col) b)
                          columns (data bias))
                 (seq 0 rows)))
      else Raise ValueError
  | _, _, _ => Raise ValueError
  end.

End Tensors.

(** ** Keras models, events and the gradient tape *)

Inductive activation := Tanh.

Inductive initializer := GlorotUniform | Zeros.

(** A layer as handed to [Sequential.add]. *)
Inductive LayerSpec :=
| Input (shape : list nat)
| Flatten
| Dense (units : nat) (kernel_initializer bias_initializer : initializer)
| Activation (fn : activation).

(** A built layer; a [Dense] layer owns two [tf.Variable]s, named by their
    index in the variable store. *)
Inductive Layer :=
| LFlatten
| LDense (units kernel bias : nat)
| LActivation (fn : activation).

(** A [Sequential] model: the shape declared by its [Input] (without the
    batch axis), the shape it currently produces, and its layers. *)
Record Model := mkModel {
  input_spec : option (list nat);
  output_spec : option (list nat);
  layers : list Layer
}.

Definition layer_variables (l : Layer) : list nat :=
  match l with
  | LDense _ kernel bias => [kernel; bias]
  | _ => []
  end.

(** [model.trainable_variables] *)
Definition trainable_variables (m : Model) : list nat :=
  flat_map layer_variables (layers m).

Section Runtime.
Context `{Arith}.

(** What a [.h5] file holds: architecture and weights. *)
Inductive SavedLayer :=
| SFlatten
| SDense (units : nat) (kernel bias : Tensor)
| SActivation (fn : activation).

Record SavedModel := mkSavedModel {
  saved_input : option (list nat);
  saved_output : option (list nat);
  saved_layers : list SavedLayer
}.

(** The operations a run performs, in the order it performs them. *)
Inductive Event :=
| EvTile (x : Tensor) (multiples : list nat)
| EvSampleNoise (n m : nat) (noise : Tensor)
| EvConcat (xs : list Tensor) (axis : nat)
| EvCall (m : Model) (x : Tensor) (training : option bool)
| EvReshape (x : Tensor) (dims : list Z)
| EvWatch (x : Tensor)
| EvDiscriminator (x : Tensor) (training : bool)
| EvReduceMean (x : Tensor)
| EvNeg (x : Tensor)
| EvPdeLoss (terms : gmap string Tensor)
| EvBcLoss (gu gE : Model)
| EvAdd (a b : Tensor)
| EvGradient (target : Tensor) (sources : list (list nat))
| EvApplyGradients (grads_and_vars : list (Tensor * nat))
| EvSave (m : Model) (path : list string)
| EvLoadModel (path : list string)
| EvNewVariable (v : nat).

(** A [tf.GradientTape]: the tensors it was told to watch and the operations
    it has recorded while active. *)
Record Tape := mkTape {
  recording : bool;
  persistent : bool;
  watched : list Tensor;
  recorded : list Event
}.

(** The discriminator handed to [step]; [discriminator.discriminator] is its
    Keras model, called with an input and the [training] flag. *)
Record Discriminator := mkDiscriminator {
  discriminator : Tensor → bool → Tensor
}.

(** The collaborators of the generator, whose classes are defined elsewhere:
    the noise sampler, the optimizer, the weight initialiser, the PDE and
    boundary-condition objects and the differentiation framework.  The
    variable store is passed to whoever reads network weights. *)
Class Collaborators := {
  Rng : Type;
  noise_draw : Rng → nat → nat → Tensor * Rng;
  OptState : Type;
  opt_update : OptState → nat → Tensor → Tensor → Tensor;
  opt_next : OptState → list (Tensor * nat) → OptState;
  Seed : Type;
  glorot_uniform : Seed → nat → nat → list Scalar * Seed;
  pde_evaluate_loss : list Tensor → gmap string Tensor → Tape → Tensor;
  bc_evaluate_loss : list Tensor → Model → Model → Tape → Tensor;
  tape_gradient : Tape → list Tensor → Tensor → list nat → list Tensor
}.

Context `{Collaborators}.

(** The mutable world around a [Generator] object. *)
Record Runtime := mkRuntime {
  variables : list Tensor;                   (* every tf.Variable, by index *)
  gen_opt : OptState;                        (* state of self.gen_opt *)
  noise_sampler : Rng;                       (* state of self.noise_sampler *)
  seed : Seed;                               (* state of the initialisers *)
  files : gmap (list string) SavedModel;     (* the file system *)
  tapes : list Tape;                         (* gradient tapes, by handle *)
  trace : list Event                         (* everything done so far *)
}.

(** The fields of [self] that name the networks. *)
Record Generator := mkGenerator {
  input_shape : list nat;
  generator_u : Model;
  generator_E : Model
}.

(** ** The monad of methods *)

Definition M (A : Type) : Type := Runtime → result (A * Runtime).

Definition ret {A} (a : A) : M A := λ rt, Ok (a, rt).

Definition bind {A B} (m : M A) (k : A → M B) : M B :=
  λ rt, match m rt with
        | Ok (a, rt') => k a rt'
        | Raise e => Raise e
        end.

Definition raise {A} (e : exn) : M A := λ _, Raise e.

Definition lift {A} (r : result A) : M A :=
  λ rt, match r with Ok a => Ok (a, rt) | Raise e => Raise e end.

Definition get : M Runtime := λ rt, Ok (rt, rt).
Definition put (rt : Runtime) : M unit := λ _, Ok ((), rt).

#[global] Instance M_ret : MRet M := @ret.
#[global] Instance M_bind : MBind M := λ A B k m, bind m k.

End Runtime.

(** ** Primitive operations *)

Section Primitives.
Context `{Arith} `{!Collaborators}.

Definition set_variables (vs : list Tensor) (rt : Runtime) : Runtime :=
  mkRuntime vs (gen_opt rt) (noise_sampler rt) (seed rt) (files rt) (tapes rt) (trace rt).
Definition set_gen_opt (o : OptState) (rt : Runtime) : Runtime :=
  mkRuntime (variables rt) o (noise_sampler rt) (seed rt) (files rt) (tapes rt) (trace rt).
Definition set_noise_sampler (r : Rng) (rt : Runtime) : Runtime :=
  mkRuntime (variables rt) (gen_opt rt) r (seed rt) (files rt) (tapes rt) (trace rt).
Definition set_seed (s : Seed) (rt : Runtime) : Runtime :=
  mkRuntime (variables rt) (gen_opt rt) (noise_sampler rt) s (files rt) (tapes rt) (trace rt).
Definition set_files (f : gmap (list string) SavedModel) (rt : Runtime) : Runtime :=
  mkRuntime (variables rt) (gen_opt rt) (noise_sampler rt) (seed rt) f (tapes rt) (trace rt).
Definition set_tapes (ts : list Tape) (rt : Runtime) : Runtime :=
  mkRuntime (variables rt) (gen_opt rt) (noise_sampler rt) (seed rt) (files rt) ts (trace rt).
Definition set_trace (tr : list Event) (rt : Runtime) : Runtime :=
  mkRuntime (variables rt) (gen_opt rt) (noise_sampler rt) (seed rt) (files rt) (tapes rt) tr.

(** Every operation is appended to the trace and to each tape that is
    recording. *)
Definition record_on (ev : Event) (t : Tape) : Tape :=
  if recording t then mkTape true (persistent t) (watched t) (recorded t ++ [ev]) else t.

Definition logged (ev : Event) (rt : Runtime) : Runtime :=
  set_trace (trace rt ++ [ev]) (set_tapes (record_on ev <$> tapes rt) rt).

Definition log (ev : Event) : M unit := λ rt, Ok ((), logged ev rt).

(** [d[k]] *)
Definition getitem (d : gmap string Tensor) (k : string) : M Tensor :=
  match d !! k with
  | Some v => mret v
  | None => raise KeyError
  end.

(** [l[i]] *)
Definition index {A} (l : list A) (i : nat) : M A :=
  match l !! i with
  | Some v => mret v
  | None => raise IndexError
  end.

Definition tile (x : Tensor) (multiples : list nat) : M Tensor :=
  log (EvTile x multiples);; lift (tf_tile x multiples).

(** [tf.concat(xs, axis=1)] *)
Definition concat1 (xs : list Tensor) : M Tensor :=
  log (EvConcat xs 1);;
  match xs with
  | [] => raise ValueError
  | x :: rest =>
      foldl (λ acc y, a ← acc; lift (tf_concat1 a y)) (mret x) rest
  end.

Definition reshape (x : Tensor) (dims : list Z) : M Tensor :=
  log (EvReshape x dims);; lift (tf_reshape x dims).

Definition reduce_mean (x : Tensor) : M Tensor :=
  log (EvReduceMean x);; mret (tf_reduce_mean x).

Definition neg (x : Tensor) : M Tensor :=
  log (EvNeg x);; mret (tf_neg x).

Definition add_ (a b : Tensor) : M Tensor :=
  log (EvAdd a b);; lift (tf_add a b).

(** [self.noise_sampler.sample_noise(n, m)] *)
Definition sample_noise (n m : nat) : M Tensor :=
  rt ← get;
  let '(noise, rng) := noise_draw (noise_sampler rt) n m in
  put (set_noise_sampler rng rt);;
  log (EvSampleNoise n m noise);;
  mret noise.

(** *** Gradient tapes *)

(** [tf.GradientTape(persistent=p).__enter__()] *)
Definition GradientTape (p : bool) : M nat :=
  rt ← get;
  put (set_tapes (tapes rt ++ [mkTape true p [] []]) rt);;
  mret (length (tapes rt)).

Definition get_tape (h : nat) : M Tape :=
  rt ← get;
  match tapes rt !! h with
  | Some t => mret t
  | None => raise RuntimeError
  end.

(** Leaving the [with] block stops the recording. *)
Definition tape_exit (h : nat) : M unit :=
  t ← get_tape h;
  rt ← get;
  put (set_tapes (<[h := mkTape false (persistent t) (watched t) (recorded t)]> (tapes rt)) rt).

(** [tape.watch(x)] *)
Definition watch (h : nat) (x : Tensor) : M unit :=
  t ← get_tape h;
  rt ← get;
  put (set_tapes (<[h := mkTape (recording t) (persistent t) (watched t ++ [x]) (recorded t)]>
                    (tapes rt)) rt);;
  log (EvWatch x).

(** [tape.gradient(target, sources)], [sources] a list of lists of
    variables. *)
Definition gradient (h : nat) (target : Tensor) (sources : list (list nat))
  : M (list (list Tensor)) :=
  t ← get_tape h;
  rt ← get;
  log (EvGradient target sources);;
  mret ((λ vs, tape_gradient t (variables rt) target vs) <$> sources).

(** [del tape]: the name is dropped, nothing observable changes. *)
Definition del (h : nat) : M unit := mret ().

(** *** Keras *)

Definition run_layer (vars : list Tensor) (l : Layer) (x : Tensor) : result Tensor :=
  match l with
  | LFlatten => flatten x
  | LDense units kernel bias =>
      match vars !! kernel, vars !! bias with
      | Some k, Some b => dense x k b
      | _, _ => Raise RuntimeError
      end
  | LActivation Tanh => Ok (tf_tanh x)
  end.

Fixpoint run_layers (vars : list Tensor) (ls : list Layer) (x : Tensor) : result Tensor :=
  match ls with
  | [] => Ok x
  | l :: ls' =>
      match run_layer vars l x with
      | Ok y => run_layers vars ls' y
      | Raise e => Raise e
      end
  end.

(** The value a model computes on [x] with the weights in [vars]; the input
    has to fit the declared input shape. *)
Definition forward (vars : list Tensor) (m : Model) (x : Tensor) : result Tensor :=
  match input_spec m, shape x with
  | Some spec, b :: rest =>
      if decide (rest = spec) then run_layers vars (layers m) x
      else Raise ValueError
  | _, _ => Raise ValueError
  end.

(** [model(x, training=...)] *)
Definition call (m : Model) (x : Tensor) (training : option bool) : M Tensor :=
  log (EvCall m x training);;
  rt ← get;
  lift (forward (variables rt) m x).

(** [discriminator.discriminator(x, training=...)] *)
Definition call_discriminator (d : Discriminator) (x : Tensor) (training : bool) : M Tensor :=
  log (EvDiscriminator x training);;
  mret (discriminator d x training).

(** [self.pde.evaluate_loss(terms, tape)] *)
Definition pde_loss (terms : gmap string Tensor) (h : nat) : M Tensor :=
  t ← get_tape h;
  rt ← get;
  log (EvPdeLoss terms);;
  mret (pde_evaluate_loss (variables rt) terms t).

(** [self.boundary_conditions.evaluate_loss(gu, gE, tape)] *)
Definition bc_loss_ (gu gE : Model) (h : nat) : M Tensor :=
  t ← get_tape h;
  rt ← get;
  log (EvBcLoss gu gE);;
  mret (bc_evaluate_loss (variables rt) gu gE t).

(** [self.gen_opt.apply_gradients(grads_and_vars)]: every listed variable is
    assigned in place. *)
Definition assign_all (o : OptState) (gvs : list (Tensor * nat)) (vars : list Tensor)
  : list Tensor :=
  foldl (λ vs gv, match vs !! gv.2 with
                  | Some old => <[gv.2 := opt_update o gv.2 gv.1 old]> vs
                  | None => vs
                  end) vars gvs.

Definition apply_gradients (grads_and_vars : list (Tensor * nat)) : M unit :=
  log (EvApplyGradients grads_and_vars);;
  rt ← get;
  put (set_gen_opt (opt_next (gen_opt rt) grads_and_vars)
        (set_variables (assign_all (gen_opt rt) grads_and_vars (variables rt)) rt)).

(** A fresh [tf.Variable]. *)
Definition new_variable (t : Tensor) : M nat :=
  rt ← get;
  put (set_variables (variables rt ++ [t]) rt);;
  log (EvNewVariable (length (variables rt)));;
  mret (length (variables rt)).

Definition initialise (i : initializer) (sh : list nat) : M Tensor :=
  match i with
  | Zeros => mret (mkTensor sh (replicate (numel sh) szero))
  | GlorotUniform =>
      rt ← get;
      let fan_in := numel (removelast sh) in
      let fan_out := List.last sh 1 in
      let '(d, s) := glorot_uniform (seed rt) fan_in fan_out in
      put (set_seed s rt);;
      mret (mkTensor sh d)
  end.

(** [tf.keras.Sequential()] and [model.add(layer)].  A layer is built, and
    its variables created, as soon as it is added, because the model starts
    with an [Input]. *)
Definition Sequential : Model := mkModel None None [].

Definition add (model : Model) (l : LayerSpec) : M Model :=
  match l with
  | Input sh =>
      match layers model with
      | [] => mret (mkModel (Some sh) (Some sh) [])
      | _ => raise ValueError
      end
  | Flatten =>
      match output_spec model with
      | Some sh => mret (mkModel (input_spec model) (Some [numel sh])
                                 (layers model ++ [LFlatten]))
      | None => raise ValueError
      end
  | Dense units ki bi =>
      match output_spec model with
      | Some sh =>
          match reverse sh with
          | k :: lead =>
              kernel_init ← initialise ki [k; units];
              kernel ← new_variable kernel_init;
              bias_init ← initialise bi [units];
              bias ← new_variable bias_init;
              mret (mkModel (input_spec model) (Some (reverse lead ++ [units]))
                            (layers model ++ [LDense units kernel bias]))
          | [] => raise ValueError
          end
      | None => raise ValueError
      end
  | Activation fn =>
      mret (mkModel (input_spec model) (output_spec model)
                    (layers model ++ [LActivation fn]))
  end.

(** [model.save(path)] and [tf.keras.models.load_model(path, compile=False)] *)
Definition save_layer (vars : list Tensor) (l : Layer) : result SavedLayer :=
  match l with
  | LFlatten => Ok SFlatten
  | LDense units kernel bias =>
      match vars !! kernel, vars !! bias with
      | Some k, Some b => Ok (SDense units k b)
      | _, _ => Raise RuntimeError
      end
  | LActivation fn => Ok (SActivation fn)
  end.

Fixpoint save_layers (vars : list Tensor) (ls : list Layer) : result (list SavedLayer) :=
  match ls with
  | [] => Ok []
  | l :: ls' =>
      match save_layer vars l, save_layers vars ls' with
      | Ok s, Ok ss => Ok (s :: ss)
      | Raise e, _ => Raise e
      | _, Raise e => Raise e
      end
  end.

Definition model_save (m : Model) (path : list string) : M unit :=
  log (EvSave m path);;
  rt ← get;
  ls ← lift (save_layers (variables rt) (layers m));
  put (set_files (<[path := mkSavedModel (input_spec m) (output_spec m) ls]> (files rt)) rt).

Definition load_layer (s : SavedLayer) : M Layer :=
  match s with
  | SFlatten => mret LFlatten
  | SDense units k b =>
      kernel ← new_variable k;
      bias ← new_variable b;
      mret (LDense units kernel bias)
  | SActivation fn => mret (LActivation fn)
  end.

Fixpoint load_layers (ss : list SavedLayer) : M (list Layer) :=
  match ss with
  | [] => mret []
  | s :: ss' => l ← load_layer s; ls ← load_layers ss'; mret (l :: ls)
  end.

Definition load_model (path : list string) : M Model :=
  log (EvLoadModel path);;
  rt ← get;
  match files rt !! path with
  | Some sm =>
      ls ← load_layers (saved_layers sm);
      mret (mkModel (saved_input sm) (saved_output sm) ls)
  | None => raise OSError
  end.

(** [dir.joinpath(name)] on [pathlib] paths, a path being its parts. *)
Definition joinpath (dir : list string) (name : string) : list string := dir ++ [name].

End Primitives.

(** ** The [Generator] class *)

Section GeneratorClass.
Context `{Arith} `{!Collaborators}.

Definition _model (input_shape : list nat) (dimensionality : nat) : M Model :=
  let model := Sequential in
  model ← add model (Input input_shape);
  model ← add model Flatten;
  model ← add model (Dense 128 GlorotUniform Zeros);
  model ← add model (Activation Tanh);

  model ← add model (Dense 128 GlorotUniform Zeros);
  model ← add model (Activation Tanh);

  model ← add model (Dense 128 GlorotUniform Zeros);
  model ← add model (Activation Tanh);

  model ← add model (Dense 128 GlorotUniform Zeros);
  model ← add model (Activation Tanh);

  model ← add model (Dense dimensionality GlorotUniform Zeros);

  mret model.

Definition __init__ (input_shape : list nat) : M Generator :=
  gu ← _model input_shape 2;
  gE ← _model input_shape 1;
  mret (mkGenerator input_shape gu gE).

Definition __call__ (self : Generator) (gen_input noise : Tensor) : M (Tensor * Tensor) :=
  x ← concat1 [gen_input; noise];
  u_pred ← call (generator_u self) x None;
  x ← concat1 [gen_input; noise];
  E_pred ← call (generator_E self) x None;

  mret (u_pred, E_pred).

Definition _loss (self : Generator) (fake_output : Tensor) (tape : nat)
    (terms : gmap string Tensor) : M (Tensor * Tensor * Tensor) :=
  m ← reduce_mean fake_output;
  wgan_gen_loss ← neg m;
  pde_loss ← pde_loss terms tape;
  bc_loss ← bc_loss_ (generator_u self) (generator_E self) tape;
  mret (wgan_gen_loss, pde_loss, bc_loss).

(** The body of [step] as Python runs it, statement by statement (the
    [tf.function] decorator compiles it but keeps that order for the
    operations logged here). *)
Definition step (self : Generator) (inputs : gmap string Tensor)
    (discriminator : Discriminator) (batch_size : nat) : M (Tensor * Tensor * Tensor) :=
  let num_pde := 100 in

  gen_tape ← GradientTape true;
  X_u ← getitem inputs "X_u";
  X_f ← getitem inputs "X_f";

  X_u_g ← tile X_u [batch_size; 1];

  n_u ← lift (shape0 X_u);
  noise_u ← sample_noise n_u batch_size;
  n_f ← lift (shape0 X_f);
  noise_f ← sample_noise n_f num_pde;

  u_inputs ← concat1 [X_u_g; noise_u];
  generated_u ← call (generator_u self) u_inputs (Some true);
  generated_snapshots ← reshape generated_u [Z.of_nat batch_size; (-1)%Z];

  X_f_g ← tile X_f [num_pde; 1];
  watch gen_tape X_f_g;;
  u_f_inputs ← concat1 [X_f_g; noise_f];
  generated_f_u ← call (generator_u self) u_f_inputs (Some true);
  E_f_inputs ← concat1 [X_f_g; noise_f];
  generated_f_E ← call (generator_E self) E_f_inputs (Some true);

  fake_output ← call_discriminator discriminator generated_snapshots true;

  '(gen_loss, pde_loss, bc_loss) ←
    _loss self fake_output gen_tape
      (<["X" := X_f_g]> (<["u" := generated_f_u]> (<["E" := generated_f_E]> ∅)));

  s ← add_ gen_loss pde_loss;
  total_loss ← add_ s bc_loss;
  tape_exit gen_tape;;

  gradients_of_generators ←
    gradient gen_tape total_loss
      [trainable_variables (generator_u self); trainable_variables (generator_E self)];

  g0 ← index gradients_of_generators 0;
  apply_gradients (zip g0 (trainable_variables (generator_u self)));;
  g1 ← index gradients_of_generators 1;
  apply_gradients (zip g1 (trainable_variables (generator_E self)));;

  del gen_tape;;

  mret (gen_loss, pde_loss, bc_loss).

Definition generate (self : Generator) (X : Tensor) (num_samples : nat)
  : M (Tensor * Tensor) :=
  n ← lift (shape0 X);
  noise ← sample_noise n num_samples;

  X_g ← tile X [num_samples; 1];

  u_inputs ← concat1 [X_g; noise];
  generated_u ← call (generator_u self) u_inputs (Some false);
  n ← lift (shape0 X);
  generated_u ← reshape generated_u [Z.of_nat num_samples; Z.of_nat n; (-1)%Z];

  E_inputs ← concat1 [X_g; noise];
  generated_E ← call (generator_E self) E_inputs (Some false);

  n ← lift (shape0 X);
  generated_E ← reshape generated_E [Z.of_nat num_samples; Z.of_nat n; (-1)%Z];

  mret (generated_u, generated_E).

Definition save (self : Generator) (save_dir : list string) : M unit :=
  model_save (generator_u self) (joinpath save_dir "generator_u.h5");;
  model_save (generator_E self) (joinpath save_dir "generator_E.h5").

Definition load (self : Generator) (model_dir : list string) : M Generator :=
  gu ← load_model (joinpath model_dir "generator_u.h5");
  let self := mkGenerator (input_shape self) gu (generator_E self) in
  gE ← load_model (joinpath model_dir "generator_E.h5");
  let self := mkGenerator (input_shape self) (generator_u self) gE in
  mret self.

End GeneratorClass.

(** ** Well-formed generators *)

Section WellFormed.
Context `{Arith}.

(** The width a stack of layers produces from rank-2 inputs of width [k],
    when every [Dense] layer finds its kernel and bias in the store with
    the shapes it was built with. *)
Fixpoint layers_out (vars : list Tensor) (ls : list Layer) (k : nat) : option nat :=
  match ls with
  | [] => Some k
  | LFlatten :: ls' => layers_out vars ls' k
  | LDense units kernel bias :: ls' =>
      match vars !! kernel, vars !! bias with
      | Some kt, Some bt =>
          if decide (shape kt = [k; units] ∧ shape bt = [units])
          then layers_out vars ls' units else None
      | _, _ => None
      end
  | LActivation _ :: ls' => layers_out vars ls' k
  end.

(** [m] maps inputs of shape [[b; k]] to outputs of shape [[b; out]]. *)
Definition model_ok (vars : list Tensor) (m : Model) (k out : nat) : Prop :=
  input_spec m = Some [k] ∧ layers_out vars (layers m) k = Some out.

(** The invariant the constructor establishes: [generator_u] produces two
    values per row and [generator_E] one. *)
Definition generator_ok `{!Collaborators} (rt : Runtime) (self : Generator) (k : nat) : Prop :=
  model_ok (variables rt) (generator_u self) k 2 ∧
  model_ok (variables rt) (generator_E self) k 1.

(** The network [_model] is expected to build when the store holds [v]
    variables, and the shapes of the ten variables it creates. *)
Definition recipe (v : nat) (input_shape : list nat) (dim : nat) : Model :=
  mkModel (Some input_shape) (Some [dim])
    [LFlatten;
     LDense 128 v (v + 1); LActivation Tanh;
     LDense 128 (v + 2) (v + 3); LActivation Tanh;
     LDense 128 (v + 4) (v + 5); LActivation Tanh;
     LDense 128 (v + 6) (v + 7); LActivation Tanh;
     LDense dim (v + 8) (v + 9)].

Definition recipe_shapes (k dim : nat) : list (list nat) :=
  [[k; 128]; [128]; [128; 128]; [128]; [128; 128]; [128]; [128; 128]; [128];
   [128; dim]; [dim]].

(** What building changes: fresh variables at the end of the store, a new
    seed, and log entries. *)
Definition allocates `{!Collaborators} (rt rt' : Runtime) (ws : list Tensor) : Prop :=
  variables rt' = variables rt ++ ws ∧ gen_opt rt' = gen_opt rt ∧
  noise_sampler rt' = noise_sampler rt ∧ files rt' = files rt.

(** A saved layer describes a live layer when the architecture agrees and
    the saved weights are the current values of the layer's variables. *)
Definition layer_holds (vars : list Tensor) (s : SavedLayer) (l : Layer) : Prop :=
  match s, l with
  | SFlatten, LFlatten => True
  | SDense units k b, LDense units' kernel bias =>
      units = units' ∧ vars !! kernel = Some k ∧ vars !! bias = Some b
  | SActivation fn, LActivation fn' => fn = fn'
  | _, _ => False
  end.

(** A saved model describes a live model. *)
Definition model_holds (vars : list Tensor) (sm : SavedModel) (m : Model) : Prop :=
  saved_input sm = input_spec m ∧ saved_output sm = output_spec m ∧
  Forall2 (layer_holds vars) (saved_layers sm) (layers m).

(** Every variable of [m] is in the store. *)
Definition model_stored (vars : list Tensor) (m : Model) : Prop :=
  Forall (λ v, v < length vars) (trainable_variables m).

(** The noise sampler returns one row of [k] values per coordinate and
    sample. *)
Definition noise_width `{!Collaborators} (k : nat) : Prop :=
  ∀ r n m, shape (noise_draw r n m).1 = [n * m; k].

(** The collaborators' loss terms are scalars. *)
Definition scalar_losses `{!Collaborators} : Prop :=
  (∀ vars terms t, shape (pde_evaluate_loss vars terms t) = []) ∧
  (∀ vars gu gE t, shape (bc_evaluate_loss vars gu gE t) = []).

(** Frame conditions on a method: it leaves the weights and the optimizer
    as they are; or it changes the values of the variables in [vs] at most,
    creating and deleting none. *)
Definition keeps_weights `{!Collaborators} {A} (c : M A) : Prop :=
  ∀ rt a rt', c rt = Ok (a, rt') →
    variables rt' = variables rt ∧ gen_opt rt' = gen_opt rt.

Definition touches_only `{!Collaborators} {A} (vs : list nat) (c : M A) : Prop :=
  ∀ rt a rt', c rt = Ok (a, rt') →
    length (variables rt') = length (variables rt) ∧
    ∀ i, i ∉ vs → variables rt' !! i = variables rt !! i.

(** A method that leaves the file system as it found it. *)
Definition keeps_files `{!Collaborators} {A} (c : M A) : Prop :=
  ∀ rt a rt', c rt = Ok (a, rt') → files rt' = files rt.

(** An optimizer whose update gives every variable a value of the shape it
    had. *)
Definition shape_preserving_optimizer `{!Collaborators} : Prop :=
  ∀ o v g old, shape (opt_update o v g old) = shape old.


(** The conditions under which a training step runs to its end: the
    dictionary holds two coordinate arrays of the same width, the batch is
    not empty, and the collaborators and the networks fit together. *)
Definition step_ready `{!Collaborators} (self : Generator) (inputs : gmap string Tensor)
    (batch_size : nat) (rt : Runtime) (X_u X_f : Tensor) (n_u n_f d k : nat) : Prop :=
  inputs !! "X_u" = Some X_u ∧ inputs !! "X_f" = Some X_f ∧
  shape X_u = [n_u; d] ∧ shape X_f = [n_f; d] ∧ 0 < batch_size ∧
  noise_width k ∧ scalar_losses ∧ generator_ok rt self (d + k).

End WellFormed.

(** ** Reading a trace *)

Section TraceReaders.
Context `{Arith}.

(** The arguments of the calls to [sample_noise], [tf.tile] and
    [tf.reshape], the forward passes of Keras models, the targets handed to
    [tape.gradient], the terms handed to [pde.evaluate_loss] and the
    arguments of [apply_gradients], each in the order of the trace. *)
Definition noise_calls (tr : list Event) : list (nat * nat) :=
  omap (λ ev, match ev with EvSampleNoise n m _ => Some (n, m) | _ => None end) tr.

Definition tile_calls (tr : list Event) : list (Tensor * list nat) :=
  omap (λ ev, match ev with EvTile x ms => Some (x, ms) | _ => None end) tr.

Definition reshape_calls (tr : list Event) : list (Tensor * list Z) :=
  omap (λ ev, match ev with EvReshape x dims => Some (x, dims) | _ => None end) tr.

Definition model_calls (tr : list Event) : list (Model * Tensor * option bool) :=
  omap (λ ev, match ev with EvCall m x t => Some (m, x, t) | _ => None end) tr.

Definition gradient_targets (tr : list Event) : list Tensor :=
  omap (λ ev, match ev with EvGradient t _ => Some t | _ => None end) tr.

Definition pde_calls (tr : list Event) : list (gmap string Tensor) :=
  omap (λ ev, match ev with EvPdeLoss terms => Some terms | _ => None end) tr.

Definition applied_gradients (tr : list Event) : list (list (Tensor * nat)) :=
  omap (λ ev, match ev with EvApplyGradients gvs => Some gvs | _ => None end) tr.

End TraceReaders.

(** ** A concrete instance, used to run the definitions *)

Module Example.

#[export] Instance arith_Z : Arith := {|
  Scalar := Z;
  szero := 0%Z;
  sadd := Z.add;
  smul := Z.mul;
  sneg := Z.opp;
  sdiv := Z.div;
  sofnat := Z.of_nat;
  stanh := λ z, z
|}.

(** Noise of width one, an optimizer that subtracts the gradient, the weight
    of a variable as its own gradient, and loss terms that are constant. *)
#[export] Instance collaborators : Collaborators := {|
  Rng := nat;
  noise_draw := λ r n m, (mkTensor [n * m; 1] (replicate (n * m) (Z.of_nat r)), S r);
  OptState := nat;
  opt_update := λ o v g old, mkTensor (shape old) (zip_with Z.sub (data old) (data g));
  opt_next := λ o gvs, S o;
  Seed := nat;
  glorot_uniform := λ s fan_in fan_out, (replicate (fan_in * fan_out) (Z.of_nat (S s)), S s);
  pde_evaluate_loss := λ vars terms t, scalar_tensor 3%Z;
  bc_evaluate_loss := λ vars gu gE t, scalar_tensor 5%Z;
  tape_gradient := λ t vars target vs, (λ v, default (scalar_tensor 0%Z) (vars !! v)) <$> vs
|}.

Definition rt0 : Runtime := mkRuntime [] 0 0 0 ∅ [] [].

Definition the_discriminator : Discriminator :=
  mkDiscriminator (λ x training, mkTensor [1] [foldr Z.add 0%Z (data x)]).

(** Two data points and one collocation point on a line. *)
Definition X_u : Tensor := mkTensor [2; 1] [1%Z; 2%Z].
Definition X_f : Tensor := mkTensor [1; 1] [7%Z].
Definition inputs : gmap string Tensor := <["X_u" := X_u]> (<["X_f" := X_f]> ∅).

(** One noise value per data point. *)
Definition z_u : Tensor := mkTensor [2; 1] [4%Z; 9%Z].

(** A coordinate array that is not a matrix, and one with two coordinates
    per point. *)
Definition X_flat : Tensor := mkTensor [3] [1%Z; 2%Z; 3%Z].
Definition X_wide : Tensor := mkTensor [1; 2] [1%Z; 2%Z].

(** An empty coordinate array. *)
Definition X_empty : Tensor := mkTensor [0; 1] [].

(** The generator built by the constructor for inputs of width two, and the
    runtime the constructor leaves. *)
Definition self : Generator :=
  match __init__ [2] rt0 with
  | Ok (g, _) => g
  | Raise _ => mkGenerator [] Sequential Sequential
  end.

Definition rt : Runtime :=
  match __init__ [2] rt0 with
  | Ok (_, r) => r
  | Raise _ => rt0
  end.

End Example.

(** * Proofs *)

(** ** The tensor operations on small inputs *)

Section Checks.
Import Example.

Example tile_rows :
  tf_tile (mkTensor [2; 2] [1; 2; 3; 4]%Z) [2; 1]
  = Ok (mkTensor [4; 2] [1; 2; 3; 4; 1; 2; 3; 4]%Z).
Proof. reflexivity. Qed.

Example tile_columns :
  tf_tile (mkTensor [2; 2] [1; 2; 3; 4]%Z) [1; 2]
  = Ok (mkTensor [2; 4] [1; 2; 1; 2; 3; 4; 3; 4]%Z).
Proof. reflexivity. Qed.

Example tile_wrong_rank :
  tf_tile (mkTensor [2; 2] [1; 2; 3; 4]%Z) [2] = Raise InvalidArgument.
Proof. reflexivity. Qed.

Example concat_columns :
  tf_concat1 (mkTensor [2; 2] [1; 2; 3; 4]%Z) (mkTensor [2; 1] [8; 9]%Z)
  = Ok (mkTensor [2; 3] [1; 2; 8; 3; 4; 9]%Z).
Proof. reflexivity. Qed.

Example concat_rows_differ :
  tf_concat1 (mkTensor [2; 2] [1; 2; 3; 4]%Z) (mkTensor [1; 1] [8]%Z)
  = Raise InvalidArgument.
Proof. reflexivity. Qed.

Example reshape_infers_last :
  tf_reshape (mkTensor [4; 2] [1; 2; 3; 4; 5; 6; 7; 8]%Z) [2; 2; -1]%Z
  = Ok (mkTensor [2; 2; 2] [1; 2; 3; 4; 5; 6; 7; 8]%Z).
Proof. reflexivity. Qed.

Example reshape_not_divisible :
  tf_reshape (mkTensor [4; 2] [1; 2; 3; 4; 5; 6; 7; 8]%Z) [3; -1]%Z
  = Raise InvalidArgument.
Proof. reflexivity. Qed.

Example reshape_no_rows :
  tf_reshape (mkTensor [0; 2] []) [3; 0; -1]%Z = Raise InvalidArgument.
Proof. reflexivity. Qed.

Example add_broadcasts :
  tf_add (mkTensor [2; 1] [10; 20]%Z) (mkTensor [1; 2] [1; 2]%Z)
  = Ok (mkTensor [2; 2] [11; 12; 21; 22]%Z).
Proof. reflexivity. Qed.

Example dense_two_rows :
  dense (mkTensor [2; 2] [1; 2; 3; 4]%Z) (mkTensor [2; 3] [1; 0; 1; 0; 1; 1]%Z)
        (mkTensor [3] [10; 20; 30]%Z)
  = Ok (mkTensor [2; 3] [11; 22; 33; 13; 24; 37]%Z).
Proof. reflexivity. Qed.

Example mean_of_four :
  tf_reduce_mean (mkTensor [2; 2] [1; 2; 3; 6]%Z) = mkTensor [] [3%Z].
Proof. reflexivity. Qed.

Example one_update :
  assign_all 0 [(mkTensor [1] [2%Z], 1)] [mkTensor [1] [5%Z]; mkTensor [1] [7%Z]]
  = [mkTensor [1] [5%Z]; mkTensor [1] [5%Z]].
Proof. reflexivity. Qed.

End Checks.

(** ** Shapes of the tensor operations *)

Section TensorFacts.
Context `{Arith}.

Lemma tf_tile_rows (t : Tensor) (n d m : nat) :
  shape t = [n; d] →
  tf_tile t [m; 1] = Ok (mkTensor [n * m; d] (tile_data [n; d] [m; 1] (data t))).
Proof.
  intros Hs. unfold tf_tile. rewrite Hs. cbn [length zip_with].
  rewrite decide_True by done. by rewrite Nat.mul_1_r.
Qed.

Lemma tf_concat1_rows (a b : Tensor) (r ca cb : nat) :
  shape a = [r; ca] → shape b = [r; cb] →
  ∃ y, tf_concat1 a b = Ok y ∧ shape y = [r; ca + cb].
Proof.
  intros Ha Hb. unfold tf_concat1. rewrite Ha, Hb.
  rewrite decide_True by done. eauto.
Qed.

Lemma flatten_rows (x : Tensor) (b k : nat) :
  shape x = [b; k] → flatten x = Ok (mkTensor [b; k] (data x)).
Proof.
  intros Hx. unfold flatten. rewrite Hx. cbn [numel foldr].
  by rewrite Nat.mul_1_r.
Qed.

Lemma dense_rows (x kernel bias : Tensor) (b k units : nat) :
  shape x = [b; k] → shape kernel = [k; units] → shape bias = [units] →
  ∃ y, dense x kernel bias = Ok y ∧ shape y = [b; units].
Proof.
  intros Hx Hk Hb. unfold dense. rewrite Hx, Hk, Hb. cbn [reverse rev_append].
  rewrite decide_True by done. eauto.
Qed.

(** Reshaping [[m * n; c]] into [[m; n; -1]] recovers [c], provided there
    is at least one row. *)
Lemma tf_reshape_samples (t : Tensor) (m n c : nat) :
  shape t = [n * m; c] → 0 < m → 0 < n →
  tf_reshape t [Z.of_nat m; Z.of_nat n; (-1)%Z]
  = Ok (mkTensor [m; n; c] (data t)).
Proof.
  intros Hs Hm Hn. unfold tf_reshape.
  rewrite decide_True by (repeat constructor; lia).
  assert (Hk : known_dims [Z.of_nat m; Z.of_nat n; (-1)%Z] = [Z.of_nat m; Z.of_nat n]).
  { unfold known_dims. rewrite !filter_cons. cbn.
    rewrite !decide_True by lia. by rewrite decide_False by lia. }
  unfold dims_product. rewrite Hk, Hs. cbn [length foldr numel Nat.sub].
  rewrite !Nat2Z.id, !Nat.mul_1_r.
  rewrite decide_True.
  - f_equal. cbn [fmap list_fmap]. rewrite !decide_False by lia.
    rewrite decide_True by done. rewrite !Nat2Z.id.
    replace (n * m * c) with (c * (m * n)) by lia.
    by rewrite Nat.div_mul by lia.
  - split; [nia|].
    replace (n * m * c) with (c * (m * n)) by lia.
    apply Nat.Div0.mod_mul.
Qed.

(** Reshaping [[n * b; c]] into [[b; -1]] succeeds for a positive [b]. *)
Lemma tf_reshape_snapshots (t : Tensor) (n b c : nat) :
  shape t = [n * b; c] → 0 < b →
  tf_reshape t [Z.of_nat b; (-1)%Z] = Ok (mkTensor [b; n * c] (data t)).
Proof.
  intros Hs Hb. unfold tf_reshape.
  rewrite decide_True by (repeat constructor; lia).
  assert (Hk : known_dims [Z.of_nat b; (-1)%Z] = [Z.of_nat b]).
  { unfold known_dims. rewrite !filter_cons. cbn.
    rewrite decide_True by lia. by rewrite decide_False by lia. }
  unfold dims_product. rewrite Hk, Hs. cbn [length foldr numel Nat.sub].
  rewrite !Nat2Z.id, !Nat.mul_1_r.
  rewrite decide_True.
  - f_equal. cbn [fmap list_fmap]. rewrite decide_False by lia.
    rewrite decide_True by done. rewrite !Nat2Z.id.
    replace (n * b * c) with (n * c * b) by lia.
    by rewrite Nat.div_mul by lia.
  - split; [lia|].
    replace (n * b * c) with (n * c * b) by lia.
    apply Nat.Div0.mod_mul.
Qed.

(** With no row at all the last axis cannot be inferred. *)
Lemma tf_reshape_empty (t : Tensor) (m : nat) :
  tf_reshape t [Z.of_nat m; 0%Z; (-1)%Z] = Raise InvalidArgument.
Proof.
  unfold tf_reshape. case_decide; [|done].
  assert (Hk : known_dims [Z.of_nat m; 0%Z; (-1)%Z] = [Z.of_nat m; 0%Z]).
  { unfold known_dims. rewrite !filter_cons. cbn.
    rewrite !decide_True by lia. by rewrite decide_False by lia. }
  unfold dims_product. rewrite Hk. cbn [length foldr Nat.sub Z.to_nat].
  rewrite Nat.mul_0_r. by rewrite decide_False by lia.
Qed.


Lemma tf_add_scalars (a b : Tensor) :
  shape a = [] → shape b = [] →
  tf_add a b = Ok (mkTensor [] (zip_with sadd (data a) (data b))).
Proof. intros Ha Hb. unfold tf_add. by rewrite Ha, Hb. Qed.

End TensorFacts.

(** ** Running models *)

Section ModelFacts.
Context `{Arith}.

Lemma run_layers_shape (vars : list Tensor) (ls : list Layer) :
  ∀ (x : Tensor) (b k out : nat),
    layers_out vars ls k = Some out → shape x = [b; k] →
    ∃ y, run_layers vars ls x = Ok y ∧ shape y = [b; out].
Proof.
  induction ls as [|l ls IH]; intros x b k out Hout Hx; cbn in Hout.
  - injection Hout as <-. by exists x.
  - destruct l as [|units kernel bias|fn]; cbn [run_layers run_layer].
    + rewrite (flatten_rows x b k Hx). by apply (IH _ b k out).
    + destruct (vars !! kernel) as [kt|]; [|done].
      destruct (vars !! bias) as [bt|]; [|done].
      case_decide as Hsh; [|done]. destruct Hsh as [Hk Hb].
      destruct (dense_rows x kt bt b k units Hx Hk Hb) as (y & -> & Hy).
      by apply (IH _ b units out).
    + destruct fn. by apply (IH _ b k out).
Qed.

Lemma forward_shape (vars : list Tensor) (m : Model) (x : Tensor) (b k out : nat) :
  model_ok vars m k out → shape x = [b; k] →
  ∃ y, forward vars m x = Ok y ∧ shape y = [b; out].
Proof.
  intros [Hin Hout] Hx. unfold forward. rewrite Hin, Hx.
  rewrite decide_True by done. by apply (run_layers_shape _ _ _ b k out).
Qed.

End ModelFacts.

(** ** Running monadic programs *)

Section MonadFacts.
Context `{Arith} `{!Collaborators}.

Lemma bind_ok {A B} (m : M A) (k : A → M B) (rt rt1 : Runtime) (a : A) :
  m rt = Ok (a, rt1) → (m ≫= k) rt = k a rt1.
Proof. intros Hm. unfold mbind, M_bind, bind. by rewrite Hm. Qed.

Lemma bind_inv {A B} (m : M A) (k : A → M B) (rt rt' : Runtime) (b : B) :
  (m ≫= k) rt = Ok (b, rt') →
  ∃ a rt1, m rt = Ok (a, rt1) ∧ k a rt1 = Ok (b, rt').
Proof.
  unfold mbind, M_bind, bind. destruct (m rt) as [[a rt1]|e]; [|done]. eauto.
Qed.

Lemma lift_ok {A} (r : result A) (a : A) (rt : Runtime) :
  r = Ok a → lift r rt = Ok (a, rt).
Proof. by intros ->. Qed.

Lemma lift_inv {A} (r : result A) (a : A) (rt rt' : Runtime) :
  lift r rt = Ok (a, rt') → r = Ok a ∧ rt' = rt.
Proof. unfold lift. destruct r; [|done]. by intros [= -> ->]. Qed.

Lemma bind_raise {A B} (m : M A) (k : A → M B) (rt : Runtime) (e : exn) :
  m rt = Raise e → (m ≫= k) rt = Raise e.
Proof. intros Hm. unfold mbind, M_bind, bind. by rewrite Hm. Qed.

Lemma lift_raise {A} (e : exn) (rt : Runtime) : lift (Raise e : result A) rt = Raise e.
Proof. done. Qed.

(** A tape that is the last of the list stays the last one when an event
    is logged. *)
Lemma lookup_last_tape (l : list Tape) (t : Tape) (h : nat) :
  h = length l → (l ++ [t]) !! h = Some t.
Proof. intros ->. by apply list_lookup_middle. Qed.

Lemma insert_last_tape (l : list Tape) (t t' : Tape) (h : nat) :
  h = length l → <[h := t']> (l ++ [t]) = l ++ [t'].
Proof.
  intros ->. rewrite insert_app_r_alt by lia. by rewrite Nat.sub_diag.
Qed.

End MonadFacts.

Section RunFacts.
Context `{Arith} `{!Collaborators}.

Lemma mret_run {A} (a : A) (rt : Runtime) : (mret a : M A) rt = Ok (a, rt).
Proof. done. Qed.

Lemma get_run (rt : Runtime) : get rt = Ok (rt, rt).
Proof. done. Qed.

Lemma put_run (rt rt1 : Runtime) : put rt1 rt = Ok ((), rt1).
Proof. done. Qed.

Lemma log_run (ev : Event) (rt : Runtime) : log ev rt = Ok ((), logged ev rt).
Proof. done. Qed.

Lemma tile_run (x y : Tensor) (multiples : list nat) (rt : Runtime) :
  tf_tile x multiples = Ok y →
  tile x multiples rt = Ok (y, logged (EvTile x multiples) rt).
Proof. intros Hy. unfold tile. rewrite (bind_ok _ _ _ _ _ (log_run _ _)). by apply lift_ok. Qed.

Lemma concat1_run (a b y : Tensor) (rt : Runtime) :
  tf_concat1 a b = Ok y →
  concat1 [a; b] rt = Ok (y, logged (EvConcat [a; b] 1) rt).
Proof.
  intros Hy. unfold concat1. rewrite (bind_ok _ _ _ _ _ (log_run _ _)).
  cbn [foldl]. rewrite (bind_ok _ _ _ _ _ (mret_run a _)). by apply lift_ok.
Qed.

Lemma reshape_run (x y : Tensor) (dims : list Z) (rt : Runtime) :
  tf_reshape x dims = Ok y →
  reshape x dims rt = Ok (y, logged (EvReshape x dims) rt).
Proof. intros Hy. unfold reshape. rewrite (bind_ok _ _ _ _ _ (log_run _ _)). by apply lift_ok. Qed.

Lemma call_run (m : Model) (x y : Tensor) (training : option bool) (rt : Runtime) :
  forward (variables rt) m x = Ok y →
  call m x training rt = Ok (y, logged (EvCall m x training) rt).
Proof.
  intros Hy. unfold call. rewrite (bind_ok _ _ _ _ _ (log_run _ _)).
  rewrite (bind_ok _ _ _ _ _ (get_run _)). by apply lift_ok.
Qed.

Lemma sample_noise_run (n m : nat) (noise : Tensor) (rng : Rng) (rt : Runtime) :
  noise_draw (noise_sampler rt) n m = (noise, rng) →
  sample_noise n m rt
  = Ok (noise, logged (EvSampleNoise n m noise) (set_noise_sampler rng rt)).
Proof.
  intros Hd. unfold sample_noise.
  rewrite (bind_ok _ _ _ _ _ (get_run _)). by rewrite Hd.
Qed.


Lemma getitem_run (d : gmap string Tensor) (key : string) (v : Tensor) (rt : Runtime) :
  d !! key = Some v → getitem d key rt = Ok (v, rt).
Proof. intros Hv. unfold getitem. by rewrite Hv. Qed.

Lemma index_run {A} (l : list A) (i : nat) (v : A) (rt : Runtime) :
  l !! i = Some v → index l i rt = Ok (v, rt).
Proof. intros Hv. unfold index. by rewrite Hv. Qed.

Lemma reduce_mean_run (x : Tensor) (rt : Runtime) :
  reduce_mean x rt = Ok (tf_reduce_mean x, logged (EvReduceMean x) rt).
Proof. done. Qed.

Lemma neg_run (x : Tensor) (rt : Runtime) :
  neg x rt = Ok (tf_neg x, logged (EvNeg x) rt).
Proof. done. Qed.

Lemma add_run (a b y : Tensor) (rt : Runtime) :
  tf_add a b = Ok y → add_ a b rt = Ok (y, logged (EvAdd a b) rt).
Proof. intros Hy. unfold add_. rewrite (bind_ok _ _ _ _ _ (log_run _ _)). by apply lift_ok. Qed.

Lemma call_discriminator_run (d : Discriminator) (x : Tensor) (training : bool) (rt : Runtime) :
  call_discriminator d x training rt
  = Ok (discriminator d x training, logged (EvDiscriminator x training) rt).
Proof. done. Qed.

Lemma GradientTape_run (p : bool) (rt : Runtime) :
  GradientTape p rt
  = Ok (length (tapes rt), set_tapes (tapes rt ++ [mkTape true p [] []]) rt).
Proof. done. Qed.

Lemma get_tape_run (h : nat) (t : Tape) (rt : Runtime) :
  tapes rt !! h = Some t → get_tape h rt = Ok (t, rt).
Proof.
  intros Ht. unfold get_tape. rewrite (bind_ok _ _ _ _ _ (get_run _)). by rewrite Ht.
Qed.

Lemma watch_run (h : nat) (x : Tensor) (t : Tape) (rt : Runtime) :
  tapes rt !! h = Some t →
  watch h x rt
  = Ok ((), logged (EvWatch x)
              (set_tapes (<[h := mkTape (recording t) (persistent t)
                                        (watched t ++ [x]) (recorded t)]> (tapes rt)) rt)).
Proof.
  intros Ht. unfold watch. rewrite (bind_ok _ _ _ _ _ (get_tape_run _ _ _ Ht)).
  rewrite (bind_ok _ _ _ _ _ (get_run _)). by rewrite (bind_ok _ _ _ _ _ (put_run _ _)).
Qed.

Lemma tape_exit_run (h : nat) (t : Tape) (rt : Runtime) :
  tapes rt !! h = Some t →
  tape_exit h rt
  = Ok ((), set_tapes (<[h := mkTape false (persistent t) (watched t) (recorded t)]>
                         (tapes rt)) rt).
Proof.
  intros Ht. unfold tape_exit. rewrite (bind_ok _ _ _ _ _ (get_tape_run _ _ _ Ht)).
  by rewrite (bind_ok _ _ _ _ _ (get_run _)).
Qed.

Lemma pde_loss_run (terms : gmap string Tensor) (h : nat) (t : Tape) (rt : Runtime) :
  tapes rt !! h = Some t →
  pde_loss terms h rt
  = Ok (pde_evaluate_loss (variables rt) terms t, logged (EvPdeLoss terms) rt).
Proof.
  intros Ht. unfold pde_loss. rewrite (bind_ok _ _ _ _ _ (get_tape_run _ _ _ Ht)).
  rewrite (bind_ok _ _ _ _ _ (get_run _)). by rewrite (bind_ok _ _ _ _ _ (log_run _ _)).
Qed.

Lemma bc_loss_run (gu gE : Model) (h : nat) (t : Tape) (rt : Runtime) :
  tapes rt !! h = Some t →
  bc_loss_ gu gE h rt
  = Ok (bc_evaluate_loss (variables rt) gu gE t, logged (EvBcLoss gu gE) rt).
Proof.
  intros Ht. unfold bc_loss_. rewrite (bind_ok _ _ _ _ _ (get_tape_run _ _ _ Ht)).
  rewrite (bind_ok _ _ _ _ _ (get_run _)). by rewrite (bind_ok _ _ _ _ _ (log_run _ _)).
Qed.

Lemma gradient_run (h : nat) (target : Tensor) (sources : list (list nat)) (t : Tape)
    (rt : Runtime) :
  tapes rt !! h = Some t →
  gradient h target sources rt
  = Ok ((λ vs, tape_gradient t (variables rt) target vs) <$> sources,
        logged (EvGradient target sources) rt).
Proof.
  intros Ht. unfold gradient. rewrite (bind_ok _ _ _ _ _ (get_tape_run _ _ _ Ht)).
  rewrite (bind_ok _ _ _ _ _ (get_run _)). by rewrite (bind_ok _ _ _ _ _ (log_run _ _)).
Qed.

Lemma apply_gradients_run (gvs : list (Tensor * nat)) (rt : Runtime) :
  apply_gradients gvs rt
  = Ok ((), set_gen_opt (opt_next (gen_opt rt) gvs)
              (set_variables (assign_all (gen_opt rt) gvs (variables rt))
                 (logged (EvApplyGradients gvs) rt))).
Proof. done. Qed.

Lemma del_run (h : nat) (rt : Runtime) : del h rt = Ok ((), rt).
Proof. done. Qed.

Lemma loss_run (self : Generator) (fake_output : Tensor) (h : nat)
    (terms : gmap string Tensor) (t : Tape) (rt : Runtime) :
  tapes rt !! h = Some t → recording t = true →
  let m := tf_reduce_mean fake_output in
  let before := mkTape true (persistent t) (watched t)
                       (recorded t ++ [EvReduceMean fake_output; EvNeg m]) in
  let after := mkTape true (persistent t) (watched t)
                      (recorded t ++ [EvReduceMean fake_output; EvNeg m; EvPdeLoss terms]) in
  _loss self fake_output h terms rt
  = Ok ((tf_neg m,
         pde_evaluate_loss (variables rt) terms before,
         bc_evaluate_loss (variables rt) (generator_u self) (generator_E self) after),
        logged (EvBcLoss (generator_u self) (generator_E self))
          (logged (EvPdeLoss terms)
             (logged (EvNeg m) (logged (EvReduceMean fake_output) rt)))).
Proof.
  intros Ht Hrec m before after. unfold _loss.
  rewrite (bind_ok _ _ _ _ _ (reduce_mean_run _ _)).
  rewrite (bind_ok _ _ _ _ _ (neg_run _ _)).
  erewrite bind_ok; cycle 1.
  { apply pde_loss_run. cbn [logged set_trace set_tapes tapes].
    rewrite !list_lookup_fmap, Ht. cbn [fmap option_fmap option_map].
    unfold record_on at 2. rewrite Hrec. reflexivity. }
  erewrite bind_ok; cycle 1.
  { apply bc_loss_run. cbn [logged set_trace set_tapes tapes].
    rewrite !list_lookup_fmap, Ht. cbn [fmap option_fmap option_map].
    unfold record_on at 3. rewrite Hrec. reflexivity. }
  cbn [record_on recording persistent watched recorded variables logged set_trace set_tapes].
  by rewrite <- !app_assoc.
Qed.

End RunFacts.

(** Symbolic execution: the runtime is kept as an explicit record whose list
    of tapes ends with the tape of the running method. *)

Ltac norm :=
  cbv beta iota delta
    [logged set_trace set_tapes set_noise_sampler set_variables set_gen_opt
     variables gen_opt noise_sampler seed files tapes trace];
  repeat first
    [ rewrite fmap_app
    | rewrite insert_last_tape by (rewrite ?length_fmap; reflexivity) ];
  cbn [fmap list_fmap record_on recording persistent watched recorded app].

Ltac tape_lookup :=
  norm; apply lookup_last_tape; rewrite ?length_fmap; reflexivity.

Ltac run_with lem :=
  erewrite bind_ok;
  [| solve [eapply lem; first [eassumption | cbn [variables noise_sampler]; eassumption
                              | reflexivity]]];
  cbv beta; norm.

Ltac run_tape lem :=
  erewrite bind_ok; [| solve [eapply lem; [tape_lookup | reflexivity ..]]];
  cbv beta iota zeta; norm.

Section GenerateFacts.
Context `{Arith} `{!Collaborators}.

Lemma generate_run (self : Generator) (X : Tensor) (m n d k : nat) (rt : Runtime) :
  generator_ok rt self (d + k) → noise_width k →
  shape X = [n; d] → 0 < m → 0 < n →
  ∃ X_g inp out_u out_E rt',
    let noise := (noise_draw (noise_sampler rt) n m).1 in
    tf_tile X [m; 1] = Ok X_g ∧
    tf_concat1 X_g noise = Ok inp ∧
    forward (variables rt) (generator_u self) inp = Ok out_u ∧
    forward (variables rt) (generator_E self) inp = Ok out_E ∧
    generate self X m rt
    = Ok ((mkTensor [m; n; 2] (data out_u), mkTensor [m; n; 1] (data out_E)), rt') ∧
    trace rt' = trace rt ++
      [EvSampleNoise n m noise; EvTile X [m; 1];
       EvConcat [X_g; noise] 1; EvCall (generator_u self) inp (Some false);
       EvReshape out_u [Z.of_nat m; Z.of_nat n; (-1)%Z];
       EvConcat [X_g; noise] 1; EvCall (generator_E self) inp (Some false);
       EvReshape out_E [Z.of_nat m; Z.of_nat n; (-1)%Z]] ∧
    variables rt' = variables rt ∧ gen_opt rt' = gen_opt rt ∧
    noise_sampler rt' = (noise_draw (noise_sampler rt) n m).2.
Proof.
  intros [Hu HE] Hnoise HX Hm Hn.
  destruct rt as [V O R S F TP TR]. cbn [variables noise_sampler gen_opt trace] in *.
  pose proof (Hnoise R n m) as Hsn.
  destruct (noise_draw R n m) as [noise rng] eqn:Hdraw.
  cbn [fst snd] in *.
  pose proof (tf_tile_rows X n d m HX) as Htile.
  set (X_g := mkTensor [n * m; d] _) in Htile.
  destruct (tf_concat1_rows X_g noise (n * m) d k eq_refl Hsn) as (inp & Hcat & Hinp).
  destruct (forward_shape _ _ inp _ _ _ Hu Hinp) as (out_u & Hfu & Hou).
  destruct (forward_shape _ _ inp _ _ _ HE Hinp) as (out_E & HfE & HoE).
  pose proof (tf_reshape_samples out_u m n 2 Hou Hm Hn) as Hru.
  pose proof (tf_reshape_samples out_E m n 1 HoE Hm Hn) as HrE.
  assert (Hs0 : shape0 X = Ok n) by (unfold shape0; by rewrite HX).
  exists X_g, inp, out_u, out_E. eexists.
  do 4 (split; [done|]). split.
  - unfold generate.
    run_with @lift_ok. run_with sample_noise_run. run_with tile_run.
    run_with concat1_run. run_with call_run. run_with @lift_ok.
    run_with reshape_run. run_with concat1_run. run_with call_run.
    run_with @lift_ok. run_with reshape_run. reflexivity.
  - cbn. by rewrite <- !app_assoc.
Qed.
End GenerateFacts.

Section StepFacts.
Context `{Arith} `{!Collaborators}.

Lemma step_run (self : Generator) (inputs : gmap string Tensor) (D : Discriminator)
    (b : nat) (rt : Runtime) (X_u X_f : Tensor) (n_u n_f d k : nat) :
  inputs !! "X_u" = Some X_u → inputs !! "X_f" = Some X_f →
  shape X_u = [n_u; d] → shape X_f = [n_f; d] → 0 < b →
  noise_width k → scalar_losses → generator_ok rt self (d + k) →
  ∃ X_u_g X_f_g u_inputs f_inputs generated_u snapshots generated_f_u generated_f_E
    s total rt',
    let draw_u := noise_draw (noise_sampler rt) n_u b in
    let draw_f := noise_draw draw_u.2 n_f 100 in
    let noise_u := draw_u.1 in
    let noise_f := draw_f.1 in
    let gu := generator_u self in
    let gE := generator_E self in
    let vars := variables rt in
    let fake_output := discriminator D snapshots true in
    let mean := tf_reduce_mean fake_output in
    let gen_loss := tf_neg mean in
    let terms : gmap string Tensor :=
      <["X" := X_f_g]> (<["u" := generated_f_u]> (<["E" := generated_f_E]> ∅)) in
    let forward_events :=
      [EvTile X_u [b; 1]; EvSampleNoise n_u b noise_u; EvSampleNoise n_f 100 noise_f;
       EvConcat [X_u_g; noise_u] 1; EvCall gu u_inputs (Some true);
       EvReshape generated_u [Z.of_nat b; (-1)%Z];
       EvTile X_f [100; 1]; EvWatch X_f_g;
       EvConcat [X_f_g; noise_f] 1; EvCall gu f_inputs (Some true);
       EvConcat [X_f_g; noise_f] 1; EvCall gE f_inputs (Some true);
       EvDiscriminator snapshots true; EvReduceMean fake_output; EvNeg mean] in
    let pde := pde_evaluate_loss vars terms (mkTape true true [X_f_g] forward_events) in
    let bc := bc_evaluate_loss vars gu gE
                (mkTape true true [X_f_g] (forward_events ++ [EvPdeLoss terms])) in
    let loss_events :=
      [EvPdeLoss terms; EvBcLoss gu gE; EvAdd gen_loss pde; EvAdd s bc] in
    let tape := mkTape false true [X_f_g] (forward_events ++ loss_events) in
    let gv_u := zip (tape_gradient tape vars total (trainable_variables gu))
                    (trainable_variables gu) in
    let gv_E := zip (tape_gradient tape vars total (trainable_variables gE))
                    (trainable_variables gE) in
    tf_tile X_u [b; 1] = Ok X_u_g ∧ tf_tile X_f [100; 1] = Ok X_f_g ∧
    tf_concat1 X_u_g noise_u = Ok u_inputs ∧ tf_concat1 X_f_g noise_f = Ok f_inputs ∧
    forward vars gu u_inputs = Ok generated_u ∧
    tf_reshape generated_u [Z.of_nat b; (-1)%Z] = Ok snapshots ∧
    forward vars gu f_inputs = Ok generated_f_u ∧
    forward vars gE f_inputs = Ok generated_f_E ∧
    tf_add gen_loss pde = Ok s ∧ tf_add s bc = Ok total ∧
    step self inputs D b rt = Ok ((gen_loss, pde, bc), rt') ∧
    trace rt' = trace rt ++ forward_events ++ loss_events ++
                [EvGradient total [trainable_variables gu; trainable_variables gE];
                 EvApplyGradients gv_u; EvApplyGradients gv_E] ∧
    variables rt' = assign_all (opt_next (gen_opt rt) gv_u) gv_E
                      (assign_all (gen_opt rt) gv_u vars) ∧
    gen_opt rt' = opt_next (opt_next (gen_opt rt) gv_u) gv_E ∧
    noise_sampler rt' = draw_f.2 ∧ files rt' = files rt ∧ seed rt' = seed rt.
Proof.
  intros HXu HXf HsXu HsXf Hb Hnoise [Hpde Hbc] [Hu HE].
  destruct rt as [V O R S F TP TR]. cbn [variables noise_sampler gen_opt files seed trace] in *.
  pose proof (Hnoise R n_u b) as Hsu.
  destruct (noise_draw R n_u b) as [noise_u rng1] eqn:Hdraw_u.
  pose proof (Hnoise rng1 n_f 100) as Hsf.
  cbn [fst snd] in *.
  destruct (noise_draw rng1 n_f 100) as [noise_f rng2] eqn:Hdraw_f.
  cbn [fst snd] in *.
  pose proof (tf_tile_rows X_u n_u d b HsXu) as Htile_u.
  set (X_u_g := mkTensor [n_u * b; d] _) in Htile_u.
  pose proof (tf_tile_rows X_f n_f d 100 HsXf) as Htile_f.
  set (X_f_g := mkTensor [n_f * 100; d] _) in Htile_f.
  destruct (tf_concat1_rows X_u_g noise_u _ d k eq_refl Hsu) as (u_inputs & Hcat_u & Hs_ui).
  destruct (tf_concat1_rows X_f_g noise_f _ d k eq_refl Hsf) as (f_inputs & Hcat_f & Hs_fi).
  destruct (forward_shape _ _ u_inputs _ _ _ Hu Hs_ui) as (generated_u & Hfw_u & Hs_gu).
  destruct (forward_shape _ _ f_inputs _ _ _ Hu Hs_fi) as (generated_f_u & Hfw_fu & _).
  destruct (forward_shape _ _ f_inputs _ _ _ HE Hs_fi) as (generated_f_E & Hfw_fE & _).
  pose proof (tf_reshape_snapshots generated_u n_u b 2 Hs_gu Hb) as Hresh.
  set (snapshots := mkTensor [b; n_u * 2] _) in Hresh.
  assert (Hs0u : shape0 X_u = Ok n_u) by (unfold shape0; by rewrite HsXu).
  assert (Hs0f : shape0 X_f = Ok n_f) by (unfold shape0; by rewrite HsXf).
  set (fake_output := discriminator D snapshots true).
  set (gen_loss := tf_neg (tf_reduce_mean fake_output)).
  eexists X_u_g, X_f_g, u_inputs, f_inputs, generated_u, snapshots, generated_f_u,
    generated_f_E, _, _, _.
  cbv zeta. do 8 (split; [eassumption|]).
  split; [by apply tf_add_scalars|]. split; [by apply tf_add_scalars|].
  split.
  - unfold step.
    run_with GradientTape_run.
    run_with getitem_run. run_with getitem_run. run_with tile_run.
    run_with @lift_ok. run_with sample_noise_run.
    run_with @lift_ok. run_with sample_noise_run.
    run_with concat1_run. run_with call_run. run_with reshape_run.
    run_with tile_run. run_tape watch_run.
    run_with concat1_run. run_with call_run.
    run_with concat1_run. run_with call_run.
    run_with call_discriminator_run.
    run_tape loss_run.
    erewrite bind_ok; [| eapply add_run; by apply tf_add_scalars]. cbv beta; norm.
    erewrite bind_ok; [| eapply add_run; by apply tf_add_scalars]. cbv beta; norm.
    run_tape tape_exit_run.
    run_tape gradient_run.
    run_with @index_run.
    run_with apply_gradients_run.
    run_with @index_run.
    run_with apply_gradients_run.
    run_with del_run.
    reflexivity.
  - cbn. rewrite <- !app_assoc. done.
Qed.



End StepFacts.

Section InitFacts.
Context `{Arith} `{!Collaborators}.

Lemma new_variable_run (t : Tensor) (rt : Runtime) :
  new_variable t rt
  = Ok (length (variables rt),
        logged (EvNewVariable (length (variables rt)))
          (set_variables (variables rt ++ [t]) rt)).
Proof. done. Qed.

Lemma initialise_glorot_run (sh : list nat) (rt : Runtime) :
  let draw := glorot_uniform (seed rt) (numel (removelast sh)) (List.last sh 1) in
  initialise GlorotUniform sh rt = Ok (mkTensor sh draw.1, set_seed draw.2 rt).
Proof.
  cbv zeta. unfold initialise. rewrite (bind_ok _ _ _ _ _ (get_run _)).
  by destruct (glorot_uniform _ _ _).
Qed.

Lemma allocates_refl (rt : Runtime) : allocates rt rt [].
Proof. unfold allocates. by rewrite app_nil_r. Qed.

Lemma allocates_trans (rt1 rt2 rt3 : Runtime) (ws ws' : list Tensor) :
  allocates rt1 rt2 ws → allocates rt2 rt3 ws' → allocates rt1 rt3 (ws ++ ws').
Proof.
  intros (Hv & Ho & Hn & Hf) (Hv' & Ho' & Hn' & Hf'). unfold allocates.
  rewrite Hv', Hv, Ho', Ho, Hn', Hn, Hf', Hf. by rewrite app_assoc.
Qed.

Lemma add_Dense_run (model : Model) (k units : nat) (rt : Runtime) :
  output_spec model = Some [k] →
  ∃ kt bt rt',
    add model (Dense units GlorotUniform Zeros) rt
    = Ok (mkModel (input_spec model) (Some [units])
            (layers model ++ [LDense units (length (variables rt))
                                           (length (variables rt) + 1)]), rt') ∧
    shape kt = [k; units] ∧ shape bt = [units] ∧ allocates rt rt' [kt; bt].
Proof.
  intros Hout. unfold add. rewrite Hout. cbn [reverse rev_append].
  destruct rt as [V O R S F TP TR].
  exists (mkTensor [k; units]
            (glorot_uniform S (numel (removelast [k; units])) (List.last [k; units] 1)).1),
         (mkTensor [units] (replicate (numel [units]) szero)).
  eexists. split; [|split; [|split]].
  - erewrite bind_ok; [| apply initialise_glorot_run]. cbv beta.
    erewrite bind_ok; [| apply new_variable_run]. cbv beta.
    erewrite bind_ok; [| reflexivity]. cbv beta.
    erewrite bind_ok; [| apply new_variable_run]. cbv beta.
    cbn [variables set_variables set_seed logged set_trace set_tapes app].
    rewrite length_app. cbn [length]. reflexivity.
  - reflexivity.
  - reflexivity.
  - unfold allocates. cbn. by rewrite <- app_assoc.
Qed.

Lemma model_run (input_shape : list nat) (dim : nat) (rt : Runtime) :
  ∃ ws rt',
    _model input_shape dim rt = Ok (recipe (length (variables rt)) input_shape dim, rt') ∧
    shape <$> ws = recipe_shapes (numel input_shape) dim ∧
    allocates rt rt' ws.
Proof.
  unfold _model.
  erewrite bind_ok; [| reflexivity]. cbv beta.
  erewrite bind_ok; [| reflexivity]. cbv beta.
  destruct (add_Dense_run (mkModel (Some input_shape) (Some [numel input_shape])
              ([] ++ [LFlatten])) (numel input_shape) 128 rt eq_refl)
    as (k1 & b1 & rt1 & Hadd1 & Hk1 & Hb1 & Ha1).
  rewrite (bind_ok _ _ _ _ _ Hadd1). cbv beta. clear Hadd1.
  erewrite bind_ok; [| reflexivity]. cbv beta. cbn [input_spec output_spec layers app].
  edestruct (add_Dense_run) as (k2 & b2 & rt2 & Hadd2 & Hk2 & Hb2 & Ha2);
    [| rewrite (bind_ok _ _ _ _ _ Hadd2)]; [reflexivity|]. cbv beta. clear Hadd2.
  erewrite bind_ok; [| reflexivity]. cbv beta. cbn [input_spec output_spec layers app].
  edestruct (add_Dense_run) as (k3 & b3 & rt3 & Hadd3 & Hk3 & Hb3 & Ha3);
    [| rewrite (bind_ok _ _ _ _ _ Hadd3)]; [reflexivity|]. cbv beta. clear Hadd3.
  erewrite bind_ok; [| reflexivity]. cbv beta. cbn [input_spec output_spec layers app].
  edestruct (add_Dense_run) as (k4 & b4 & rt4 & Hadd4 & Hk4 & Hb4 & Ha4);
    [| rewrite (bind_ok _ _ _ _ _ Hadd4)]; [reflexivity|]. cbv beta. clear Hadd4.
  erewrite bind_ok; [| reflexivity]. cbv beta. cbn [input_spec output_spec layers app].
  edestruct (add_Dense_run) as (k5 & b5 & rt5 & Hadd5 & Hk5 & Hb5 & Ha5);
    [| rewrite (bind_ok _ _ _ _ _ Hadd5)]; [reflexivity|]. cbv beta. clear Hadd5.
  cbn [input_spec output_spec layers app].
  pose proof (allocates_trans _ _ _ _ _ Ha1 Ha2) as Ha12.
  pose proof (allocates_trans _ _ _ _ _ Ha12 Ha3) as Ha13.
  pose proof (allocates_trans _ _ _ _ _ Ha13 Ha4) as Ha14.
  pose proof (allocates_trans _ _ _ _ _ Ha14 Ha5) as Ha15.
  cbn [app] in *.
  destruct Ha1 as [-> _], Ha12 as [-> _], Ha13 as [-> _], Ha14 as [-> _].
  rewrite !length_app. cbn [length].
  eexists _, rt5. split; [|split; [|exact Ha15]].
  - unfold recipe. rewrite <- !Nat.add_assoc. reflexivity.
  - cbn. by rewrite Hk1, Hb1, Hk2, Hb2, Hk3, Hb3, Hk4, Hb4, Hk5, Hb5.
Qed.

Lemma init_run (input_shape : list nat) (rt : Runtime) :
  ∃ ws_u ws_E rt',
    let v := length (variables rt) in
    __init__ input_shape rt
    = Ok (mkGenerator input_shape (recipe v input_shape 2) (recipe (v + 10) input_shape 1),
          rt') ∧
    shape <$> ws_u = recipe_shapes (numel input_shape) 2 ∧
    shape <$> ws_E = recipe_shapes (numel input_shape) 1 ∧
    allocates rt rt' (ws_u ++ ws_E).
Proof.
  unfold __init__.
  destruct (model_run input_shape 2 rt) as (ws_u & rt1 & Hu & Hsu & Hau).
  destruct (model_run input_shape 1 rt1) as (ws_E & rt2 & HE & HsE & HaE).
  exists ws_u, ws_E, rt2. cbv zeta.
  rewrite (bind_ok _ _ _ _ _ Hu). rewrite (bind_ok _ _ _ _ _ HE).
  split; [|split; [done|split; [done|by eapply allocates_trans]]].
  destruct Hau as [-> _]. rewrite length_app.
  assert (length ws_u = 10) as ->; [|done].
  by rewrite <- (length_fmap shape), Hsu.
Qed.

Lemma lookup_after_end (V l : list Tensor) (i : nat) :
  (V ++ l) !! (length V + i) = l !! i.
Proof. rewrite lookup_app_r by lia. f_equal. lia. Qed.

Lemma lookup_at_end (V l : list Tensor) : (V ++ l) !! length V = l !! 0.
Proof. rewrite <- (lookup_after_end V l 0). f_equal. lia. Qed.

(** A freshly built network is well formed for inputs that are vectors. *)
Lemma recipe_ok (V ws rest : list Tensor) (k dim : nat) :
  shape <$> ws = recipe_shapes k dim →
  model_ok (V ++ ws ++ rest) (recipe (length V) [k] dim) k dim.
Proof.
  intros Hws.
  destruct ws as [|w0 [|w1 [|w2 [|w3 [|w4 [|w5 [|w6 [|w7 [|w8 [|w9 [|]]]]]]]]]]];
    try discriminate Hws.
  injection Hws as E0 E1 E2 E3 E4 E5 E6 E7 E8 E9.
  split; [done|]. unfold recipe. cbn [layers layers_out].
  rewrite lookup_at_end, !lookup_after_end.
  cbn [lookup list_lookup app].
  rewrite E0, E1, E2, E3, E4, E5, E6, E7, E8, E9.
  by rewrite !decide_True by done.
Qed.

Lemma init_ok (k : nat) (rt rt' : Runtime) (self : Generator) :
  __init__ [k] rt = Ok (self, rt') → generator_ok rt' self k.
Proof.
  intros Hinit.
  destruct (init_run [k] rt) as (ws_u & ws_E & rt2 & Hrun & Hsu & HsE & Hv & _).
  cbv zeta in Hrun. rewrite Hrun in Hinit. injection Hinit as <- <-.
  unfold generator_ok. rewrite Hv. cbn [numel foldr] in *. rewrite Nat.mul_1_r in *.
  split; cbn [generator_u generator_E].
  - by apply recipe_ok.
  - replace (length (variables rt) + 10) with (length (variables rt ++ ws_u)).
    + rewrite app_assoc. rewrite <- (app_nil_r ws_E). by apply recipe_ok.
    + rewrite length_app. f_equal. by rewrite <- (length_fmap shape), Hsu.
Qed.

End InitFacts.

(** ** Inference: [__call__] and [generate] *)

Section InferenceFacts.
Context `{Arith} `{!Collaborators}.

Lemma call_method_run (self : Generator) (X z : Tensor) (n d k : nat) (rt : Runtime) :
  generator_ok rt self (d + k) → shape X = [n; d] → shape z = [n; k] →
  ∃ x u E rt',
    tf_concat1 X z = Ok x ∧
    forward (variables rt) (generator_u self) x = Ok u ∧
    forward (variables rt) (generator_E self) x = Ok E ∧
    __call__ self X z rt = Ok ((u, E), rt') ∧
    trace rt' = trace rt ++
      [EvConcat [X; z] 1; EvCall (generator_u self) x None;
       EvConcat [X; z] 1; EvCall (generator_E self) x None] ∧
    variables rt' = variables rt ∧ gen_opt rt' = gen_opt rt ∧
    noise_sampler rt' = noise_sampler rt.
Proof.
  intros [Hu HE] HX Hz.
  destruct rt as [V O R S F TP TR]. cbn [variables noise_sampler gen_opt trace] in *.
  destruct (tf_concat1_rows X z n d k HX Hz) as (x & Hcat & Hx).
  destruct (forward_shape _ _ x _ _ _ Hu Hx) as (u & Hfu & _).
  destruct (forward_shape _ _ x _ _ _ HE Hx) as (E & HfE & _).
  exists x, u, E. eexists. do 3 (split; [done|]). split.
  - unfold __call__.
    run_with concat1_run. run_with call_run.
    run_with concat1_run. run_with call_run. reflexivity.
  - cbn. by rewrite <- !app_assoc.
Qed.

(** With an empty coordinate array the samples cannot be reshaped, whatever
    the networks and the sampler are. *)
Lemma generate_empty (self : Generator) (X : Tensor) (m d : nat) (rt : Runtime) :
  shape X = [0; d] → ¬ is_Ok (generate self X m rt).
Proof.
  intros HX Hok. destruct (generate self X m rt) as [[res rt']|e] eqn:Hrun; [|done].
  unfold generate, shape0 in Hrun. rewrite HX in Hrun.
  rewrite (bind_ok _ _ _ _ _ (lift_ok _ _ _ eq_refl)) in Hrun.
  apply bind_inv in Hrun as (noise & rt1 & _ & Hrun).
  apply bind_inv in Hrun as (X_g & rt2 & _ & Hrun).
  apply bind_inv in Hrun as (u_inputs & rt3 & _ & Hrun).
  apply bind_inv in Hrun as (generated_u & rt4 & _ & Hrun).
  rewrite (bind_ok _ _ _ _ _ (lift_ok _ _ _ eq_refl)) in Hrun.
  apply bind_inv in Hrun as (reshaped & rt5 & Hresh & _).
  unfold reshape in Hresh. rewrite (bind_ok _ _ _ _ _ (log_run _ _)) in Hresh.
  apply lift_inv in Hresh as [Hresh _].
  change (Z.of_nat 0) with 0%Z in Hresh.
  by rewrite tf_reshape_empty in Hresh.
Qed.

End InferenceFacts.

(** ** The concrete instance is well formed *)

Section ExampleFacts.
Import Example.

Lemma example_built : __init__ [2] rt0 = Ok (self, rt).
Proof.
  unfold self, rt. destruct (init_run [2] rt0) as (ws_u & ws_E & rt' & Hrun & _).
  cbv zeta in Hrun. by rewrite Hrun.
Qed.

Opaque Example.self Example.rt.

Lemma example_generator_ok : generator_ok rt self (1 + 1).
Proof. apply (init_ok 2 rt0). exact example_built. Qed.

Lemma example_noise_width : noise_width 1.
Proof. intros r n m. reflexivity. Qed.

Lemma example_scalar_losses : scalar_losses.
Proof. split; intros; reflexivity. Qed.

End ExampleFacts.

(** * Properties of the generator *)

Section Inference.
Context `{Arith} `{!Collaborators}.

(** C3, amended: for every coordinate array [X] of shape [[n; d]] with at
    least one row ([0 < n]) and every positive number of samples [m],
    [generate X m] draws noise once, with [sample_noise n m], tiles [X] [m]
    times, runs both networks with [training=False] on the tiled coordinates
    concatenated with that noise, and returns [u_samples] of shape
    [[m; n; 2]] and [E_samples] of shape [[m; n; 1]].  The sampler is assumed
    to return [n * m] rows of width [k], and the networks to take inputs of
    width [d + k]. *)
Theorem generate_samples_shapes (self : Generator) (X : Tensor) (m n d k : nat)
    (rt : Runtime) :
  generator_ok rt self (d + k) → noise_width k →
  shape X = [n; d] → 0 < m → 0 < n →
  ∃ X_g x u_samples E_samples rt',
    generate self X m rt = Ok ((u_samples, E_samples), rt') ∧
    shape u_samples = [m; n; 2] ∧ shape E_samples = [m; n; 1] ∧
    noise_calls (trace rt') = noise_calls (trace rt) ++ [(n, m)] ∧
    tf_tile X [m; 1] = Ok X_g ∧
    tile_calls (trace rt') = tile_calls (trace rt) ++ [(X, [m; 1])] ∧
    tf_concat1 X_g (noise_draw (noise_sampler rt) n m).1 = Ok x ∧
    model_calls (trace rt')
    = model_calls (trace rt) ++
      [(generator_u self, x, Some false); (generator_E self, x, Some false)].
Proof.
  intros Hok Hnoise HX Hm Hn.
  destruct (generate_run self X m n d k rt Hok Hnoise HX Hm Hn)
    as (X_g & x & out_u & out_E & rt' & Htile & Hcat & _ & _ & Hrun & Htr & _).
  exists X_g, x, (mkTensor [m; n; 2] (data out_u)), (mkTensor [m; n; 1] (data out_E)), rt'.
  unfold noise_calls, tile_calls, model_calls. rewrite Htr, !omap_app.
  split_and!; done.
Qed.

(** C7: the two variables come from one noise realisation.  [__call__] runs
    [generator_u] and [generator_E] on the same tensor, its coordinates
    concatenated with the noise it was given, and samples nothing itself;
    [generate] samples once and runs both networks on the same tensor, the
    tiled coordinates concatenated with that single draw. *)
Theorem shared_noise (self : Generator) (X z : Tensor) (m n d k : nat) (rt : Runtime) :
  generator_ok rt self (d + k) → noise_width k →
  shape X = [n; d] → shape z = [n; k] → 0 < m → 0 < n →
  (∃ x u E rt',
     __call__ self X z rt = Ok ((u, E), rt') ∧
     tf_concat1 X z = Ok x ∧
     forward (variables rt) (generator_u self) x = Ok u ∧
     forward (variables rt) (generator_E self) x = Ok E ∧
     model_calls (trace rt')
     = model_calls (trace rt) ++ [(generator_u self, x, None); (generator_E self, x, None)] ∧
     noise_calls (trace rt') = noise_calls (trace rt)) ∧
  (∃ X_g x out_u out_E u E rt',
     generate self X m rt = Ok ((u, E), rt') ∧
     tf_tile X [m; 1] = Ok X_g ∧
     tf_concat1 X_g (noise_draw (noise_sampler rt) n m).1 = Ok x ∧
     forward (variables rt) (generator_u self) x = Ok out_u ∧
     forward (variables rt) (generator_E self) x = Ok out_E ∧
     data u = data out_u ∧ data E = data out_E ∧
     model_calls (trace rt')
     = model_calls (trace rt) ++
       [(generator_u self, x, Some false); (generator_E self, x, Some false)] ∧
     noise_calls (trace rt') = noise_calls (trace rt) ++ [(n, m)]).
Proof.
  intros Hok Hnoise HX Hz Hm Hn. split.
  - destruct (call_method_run self X z n d k rt Hok HX Hz)
      as (x & u & E & rt' & Hcat & Hu & HE & Hrun & Htr & _).
    exists x, u, E, rt'. unfold noise_calls, model_calls. rewrite Htr, !omap_app.
    cbn [omap list_omap]. rewrite app_nil_r. split_and!; done.
  - destruct (generate_run self X m n d k rt Hok Hnoise HX Hm Hn)
      as (X_g & x & out_u & out_E & rt' & Htile & Hcat & Hu & HE & Hrun & Htr & _).
    exists X_g, x, out_u, out_E, (mkTensor [m; n; 2] (data out_u)),
      (mkTensor [m; n; 1] (data out_E)), rt'.
    unfold noise_calls, model_calls. rewrite Htr, !omap_app.
    split_and!; done.
Qed.

End Inference.

(** [generate] on two data points, two samples. *)
Lemma generate_samples_shapes_witness :
  ∃ u E rt',
    generate Example.self Example.X_u 2 Example.rt = Ok ((u, E), rt') ∧
    shape u = [2; 2; 2] ∧ shape E = [2; 2; 1].
Proof.
  destruct (generate_samples_shapes Example.self Example.X_u 2 2 1 1 Example.rt)
    as (X_g & x & u & E & rt' & Hrun & Hu & HE & _).
  - exact example_generator_ok.
  - exact example_noise_width.
  - reflexivity.
  - lia.
  - lia.
  - exists u, E, rt'. by split_and!.
Defined.

(** C3 as stated fails for an empty coordinate array: with [X] of shape
    [[0; 1]] and three samples, [generate] does not return a pair of shapes
    [[3; 0; 2]] and [[3; 0; 1]]. *)
Lemma generate_empty_array_counterexample :
  ¬ ∃ u E rt',
      generate Example.self Example.X_empty 3 Example.rt = Ok ((u, E), rt') ∧
      shape u = [3; 0; 2] ∧ shape E = [3; 0; 1].
Proof.
  intros (u & E & rt' & Hrun & _).
  apply (generate_empty Example.self Example.X_empty 3 1 Example.rt eq_refl).
  by rewrite Hrun.
Qed.

Lemma shared_noise_witness :
  (∃ x u E rt',
     __call__ Example.self Example.X_u Example.z_u Example.rt
     = Ok ((u, E), rt') ∧
     forward (variables Example.rt) (generator_u Example.self) x = Ok u ∧
     forward (variables Example.rt) (generator_E Example.self) x = Ok E) ∧
  (∃ x u E rt',
     generate Example.self Example.X_u 2 Example.rt = Ok ((u, E), rt') ∧
     model_calls (trace rt')
     = model_calls (trace Example.rt) ++
       [(generator_u Example.self, x, Some false);
        (generator_E Example.self, x, Some false)]).
Proof.
  destruct (shared_noise Example.self Example.X_u Example.z_u
              2 2 1 1 Example.rt)
    as [(x & u & E & rt' & Hrun & _ & Hu & HE & _)
        (X_g & x' & out_u & out_E & u' & E' & rt'' & Hrun' & _ & _ & _ & _ & _ & _ & Hcalls & _)].
  - exact example_generator_ok.
  - exact example_noise_width.
  - reflexivity.
  - reflexivity.
  - lia.
  - lia.
  - split.
    + exists x, u, E, rt'. by split_and!.
    + exists x', u', E', rt''. by split_and!.
Defined.

(** ** The training step *)

Lemma split_middle {A} (l : list A) (i j : nat) :
  l = take i l ++ take j (drop i l) ++ drop (i + j) l.
Proof. by rewrite <- drop_drop, !take_drop. Qed.

Section Training.
Context `{Arith} `{!Collaborators}.


(** C2: the objective handed to the gradient tape is the sum of three
    terms: the Wasserstein generator loss, which is minus the mean of the
    discriminator's output on the generated snapshots, the loss returned by
    [pde.evaluate_loss] and the loss returned by
    [boundary_conditions.evaluate_loss]; [step] returns these three
    terms. *)
Theorem step_objective (self : Generator) (inputs : gmap string Tensor)
    (D : Discriminator) (b : nat) (rt : Runtime) (X_u X_f : Tensor) (n_u n_f d k : nat) :
  step_ready self inputs b rt X_u X_f n_u n_f d k →
  ∃ X_u_g u_inputs generated_u snapshots terms tape_pde tape_bc s total rt',
    let noise_u := (noise_draw (noise_sampler rt) n_u b).1 in
    let fake_output := discriminator D snapshots true in
    let gen_loss := tf_neg (tf_reduce_mean fake_output) in
    let pde_loss := pde_evaluate_loss (variables rt) terms tape_pde in
    let bc_loss := bc_evaluate_loss (variables rt) (generator_u self) (generator_E self)
                     tape_bc in
    step self inputs D b rt = Ok ((gen_loss, pde_loss, bc_loss), rt') ∧
    tf_tile X_u [b; 1] = Ok X_u_g ∧ tf_concat1 X_u_g noise_u = Ok u_inputs ∧
    forward (variables rt) (generator_u self) u_inputs = Ok generated_u ∧
    tf_reshape generated_u [Z.of_nat b; (-1)%Z] = Ok snapshots ∧
    data gen_loss
    = [sneg (sdiv (foldr sadd szero (data fake_output))
                  (sofnat (length (data fake_output))))] ∧
    tf_add gen_loss pde_loss = Ok s ∧ tf_add s bc_loss = Ok total ∧
    data total
    = zip_with sadd (zip_with sadd (data gen_loss) (data pde_loss)) (data bc_loss) ∧
    gradient_targets (trace rt') = gradient_targets (trace rt) ++ [total].
Proof.
  intros (HXu & HXf & HsXu & HsXf & Hb & Hnoise & Hlosses & Hok).
  destruct (step_run self inputs D b rt X_u X_f n_u n_f d k
              HXu HXf HsXu HsXf Hb Hnoise Hlosses Hok)
    as (X_u_g & X_f_g & u_inputs & f_inputs & generated_u & snapshots & generated_f_u
        & generated_f_E & s & total & rt' & Hrun).
  cbv zeta in Hrun.
  destruct Hrun as (Htu & _ & Hcu & _ & Hfu & Hresh & _ & _ & Hs & Htot & Hrun & Htr & _).
  eexists X_u_g, u_inputs, generated_u, snapshots, _, _, _, s, total, rt'.
  cbv zeta. split; [exact Hrun|]. do 4 (split; [assumption|]).
  split; [reflexivity|]. do 2 (split; [assumption|]).
  destruct Hlosses as [Hpde Hbc].
  rewrite tf_add_scalars in Hs by (done || apply Hpde). injection Hs as <-.
  rewrite tf_add_scalars in Htot by (done || apply Hbc). injection Htot as <-.
  split; [reflexivity|].
  unfold gradient_targets. rewrite Htr, !omap_app. reflexivity.
Qed.

(** C6: the PDE constraint is enforced at the collocation coordinates.  The
    tape handed to [pde.evaluate_loss] watches the tiled [X_f], and only
    it; after the watch it has recorded the concatenation of those
    coordinates with the noise and the forward passes of both networks on
    the result; and the terms of the loss are the watched coordinates under
    ["X"] and the outputs of [generator_u] and [generator_E] on them under
    ["u"] and ["E"]. *)
Theorem pde_loss_at_collocation_points (self : Generator) (inputs : gmap string Tensor)
    (D : Discriminator) (b : nat) (rt : Runtime) (X_u X_f : Tensor) (n_u n_f d k : nat) :
  step_ready self inputs b rt X_u X_f n_u n_f d k →
  ∃ X_f_g f_inputs generated_f_u generated_f_E tape before after gen_loss bc_loss rt',
    let noise_f := (noise_draw (noise_draw (noise_sampler rt) n_u b).2 n_f 100).1 in
    let terms : gmap string Tensor :=
      <["X" := X_f_g]> (<["u" := generated_f_u]> (<["E" := generated_f_E]> ∅)) in
    step self inputs D b rt
    = Ok ((gen_loss, pde_evaluate_loss (variables rt) terms tape, bc_loss), rt') ∧
    tf_tile X_f [100; 1] = Ok X_f_g ∧
    tf_concat1 X_f_g noise_f = Ok f_inputs ∧
    forward (variables rt) (generator_u self) f_inputs = Ok generated_f_u ∧
    forward (variables rt) (generator_E self) f_inputs = Ok generated_f_E ∧
    recording tape = true ∧ watched tape = [X_f_g] ∧
    recorded tape
    = before ++
      [EvTile X_f [100; 1]; EvWatch X_f_g;
       EvConcat [X_f_g; noise_f] 1; EvCall (generator_u self) f_inputs (Some true);
       EvConcat [X_f_g; noise_f] 1; EvCall (generator_E self) f_inputs (Some true)]
      ++ after ∧
    pde_calls (trace rt') = pde_calls (trace rt) ++ [terms].
Proof.
  intros (HXu & HXf & HsXu & HsXf & Hb & Hnoise & Hlosses & Hok).
  destruct (step_run self inputs D b rt X_u X_f n_u n_f d k
              HXu HXf HsXu HsXf Hb Hnoise Hlosses Hok)
    as (X_u_g & X_f_g & u_inputs & f_inputs & generated_u & snapshots & generated_f_u
        & generated_f_E & s & total & rt' & Hrun).
  cbv zeta in Hrun.
  destruct Hrun as (_ & Htf & _ & Hcf & _ & _ & Hfu & HfE & _ & _ & Hrun & Htr & _).
  eexists X_f_g, f_inputs, generated_f_u, generated_f_E, _, _, _, _, _, rt'.
  cbv zeta. split; [exact Hrun|]. do 4 (split; [assumption|]).
  do 2 (split; [reflexivity|]). split.
  - cbn [recorded]. exact (split_middle _ 6 6).
  - unfold pde_calls. rewrite Htr, !omap_app. reflexivity.
Qed.

(** C8: the collocation branch always uses one hundred noise
    realisations.  A step tiles twice and samples twice: [X_u] is tiled
    [batch_size] times and its noise drawn with count [batch_size]; [X_f] is
    tiled 100 times and its noise drawn with count 100, whatever
    [batch_size] is.  The only other use of [batch_size] is the reshape of
    the generated data into snapshots. *)
Theorem collocation_branch_uses_100 (self : Generator) (inputs : gmap string Tensor)
    (D : Discriminator) (b : nat) (rt : Runtime) (X_u X_f : Tensor) (n_u n_f d k : nat) :
  step_ready self inputs b rt X_u X_f n_u n_f d k →
  ∃ X_f_g generated_u res rt',
    step self inputs D b rt = Ok (res, rt') ∧
    tile_calls (trace rt') = tile_calls (trace rt) ++ [(X_u, [b; 1]); (X_f, [100; 1])] ∧
    noise_calls (trace rt') = noise_calls (trace rt) ++ [(n_u, b); (n_f, 100)] ∧
    reshape_calls (trace rt')
    = reshape_calls (trace rt) ++ [(generated_u, [Z.of_nat b; (-1)%Z])] ∧
    tf_tile X_f [100; 1] = Ok X_f_g ∧ shape X_f_g = [n_f * 100; d].
Proof.
  intros (HXu & HXf & HsXu & HsXf & Hb & Hnoise & Hlosses & Hok).
  destruct (step_run self inputs D b rt X_u X_f n_u n_f d k
              HXu HXf HsXu HsXf Hb Hnoise Hlosses Hok)
    as (X_u_g & X_f_g & u_inputs & f_inputs & generated_u & snapshots & generated_f_u
        & generated_f_E & s & total & rt' & Hrun).
  cbv zeta in Hrun.
  destruct Hrun as (_ & Htf & _ & _ & _ & _ & _ & _ & _ & _ & Hrun & Htr & _).
  eexists X_f_g, generated_u, _, rt'. split; [exact Hrun|].
  unfold tile_calls, noise_calls, reshape_calls. rewrite Htr, !omap_app.
  do 3 (split; [reflexivity|]). split; [assumption|].
  rewrite (tf_tile_rows X_f n_f d 100 HsXf) in Htf. by injection Htf as <-.
Qed.

(** C9: the returned losses are those of the networks as they were when
    [step] was entered.  All three are computed from the variable store of
    the entry runtime, every loss is evaluated before the first
    [apply_gradients], and only then is the store updated. *)
Theorem returned_losses_precede_update (self : Generator) (inputs : gmap string Tensor)
    (D : Discriminator) (b : nat) (rt : Runtime) (X_u X_f : Tensor) (n_u n_f d k : nat) :
  step_ready self inputs b rt X_u X_f n_u n_f d k →
  ∃ X_u_g X_f_g u_inputs f_inputs generated_u snapshots generated_f_u generated_f_E
    tape_pde tape_bc before gv_u gv_E rt',
    let noise_u := (noise_draw (noise_sampler rt) n_u b).1 in
    let noise_f := (noise_draw (noise_draw (noise_sampler rt) n_u b).2 n_f 100).1 in
    let fake_output := discriminator D snapshots true in
    let terms : gmap string Tensor :=
      <["X" := X_f_g]> (<["u" := generated_f_u]> (<["E" := generated_f_E]> ∅)) in
    let gen_loss := tf_neg (tf_reduce_mean fake_output) in
    let pde_loss := pde_evaluate_loss (variables rt) terms tape_pde in
    let bc_loss := bc_evaluate_loss (variables rt) (generator_u self) (generator_E self)
                     tape_bc in
    step self inputs D b rt = Ok ((gen_loss, pde_loss, bc_loss), rt') ∧
    tf_tile X_u [b; 1] = Ok X_u_g ∧ tf_concat1 X_u_g noise_u = Ok u_inputs ∧
    forward (variables rt) (generator_u self) u_inputs = Ok generated_u ∧
    tf_reshape generated_u [Z.of_nat b; (-1)%Z] = Ok snapshots ∧
    tf_tile X_f [100; 1] = Ok X_f_g ∧ tf_concat1 X_f_g noise_f = Ok f_inputs ∧
    forward (variables rt) (generator_u self) f_inputs = Ok generated_f_u ∧
    forward (variables rt) (generator_E self) f_inputs = Ok generated_f_E ∧
    trace rt' = trace rt ++ before ++ [EvApplyGradients gv_u; EvApplyGradients gv_E] ∧
    applied_gradients before = [] ∧
    EvNeg (tf_reduce_mean fake_output) ∈ before ∧
    EvPdeLoss terms ∈ before ∧
    EvBcLoss (generator_u self) (generator_E self) ∈ before ∧
    variables rt' = assign_all (opt_next (gen_opt rt) gv_u) gv_E
                      (assign_all (gen_opt rt) gv_u (variables rt)).
Proof.
  intros (HXu & HXf & HsXu & HsXf & Hb & Hnoise & Hlosses & Hok).
  destruct (step_run self inputs D b rt X_u X_f n_u n_f d k
              HXu HXf HsXu HsXf Hb Hnoise Hlosses Hok)
    as (X_u_g & X_f_g & u_inputs & f_inputs & generated_u & snapshots & generated_f_u
        & generated_f_E & s & total & rt' & Hrun).
  cbv zeta in Hrun.
  destruct Hrun as (Htu & Htf & Hcu & Hcf & Hfu & Hresh & Hffu & HffE & _ & _
                    & Hrun & Htr & Hvars & _).
  eexists X_u_g, X_f_g, u_inputs, f_inputs, generated_u, snapshots, generated_f_u,
    generated_f_E, _, _, _, _, _, rt'.
  cbv zeta. split; [exact Hrun|]. do 8 (split; [assumption|]).
  split.
  { rewrite Htr. f_equal. exact (eq_sym (take_drop 20 _)). }
  cbn [take]. split; [reflexivity|].
  do 3 (split; [by repeat constructor|]).
  exact Hvars.
Qed.

End Training.

(** A training step on the concrete instance, with a batch of three. *)
Lemma example_step_ready :
  step_ready Example.self Example.inputs 3 Example.rt Example.X_u Example.X_f 2 1 1 1.
Proof.
  split_and!.
  - reflexivity.
  - reflexivity.
  - reflexivity.
  - reflexivity.
  - lia.
  - exact example_noise_width.
  - exact example_scalar_losses.
  - exact example_generator_ok.
Qed.



Lemma step_objective_witness :
  ∃ res total rt',
    step Example.self Example.inputs Example.the_discriminator 3 Example.rt
    = Ok (res, rt') ∧
    gradient_targets (trace rt') = gradient_targets (trace Example.rt) ++ [total].
Proof.
  destruct (step_objective Example.self Example.inputs
              Example.the_discriminator 3 Example.rt Example.X_u Example.X_f 2 1 1 1
              example_step_ready)
    as (? & ? & ? & ? & ? & ? & ? & ? & total & rt' & Hrun).
  cbv zeta in Hrun.
  destruct Hrun as (Hrun & _ & _ & _ & _ & _ & _ & _ & _ & Htargets).
  eexists _, total, rt'. split; [exact Hrun | exact Htargets].
Defined.

Lemma pde_loss_at_collocation_points_witness :
  ∃ res tape X_f_g rt',
    step Example.self Example.inputs Example.the_discriminator 3 Example.rt
    = Ok (res, rt') ∧
    tf_tile Example.X_f [100; 1] = Ok X_f_g ∧ watched tape = [X_f_g].
Proof.
  destruct (pde_loss_at_collocation_points Example.self Example.inputs
              Example.the_discriminator 3 Example.rt Example.X_u Example.X_f 2 1 1 1
              example_step_ready)
    as (X_f_g & ? & ? & ? & tape & ? & ? & ? & ? & rt' & Hrun).
  cbv zeta in Hrun. destruct Hrun as (Hrun & Htile & _ & _ & _ & _ & Hwatched & _).
  eexists _, tape, X_f_g, rt'. split; [exact Hrun|]. split; [exact Htile | exact Hwatched].
Defined.

Lemma collocation_branch_uses_100_witness :
  ∃ res rt',
    step Example.self Example.inputs Example.the_discriminator 3 Example.rt
    = Ok (res, rt') ∧
    noise_calls (trace rt') = noise_calls (trace Example.rt) ++ [(2, 3); (1, 100)].
Proof.
  destruct (collocation_branch_uses_100 Example.self Example.inputs
              Example.the_discriminator 3 Example.rt Example.X_u Example.X_f 2 1 1 1
              example_step_ready)
    as (? & ? & res & rt' & Hrun & _ & Hnoise & _).
  exists res, rt'. split; [exact Hrun | exact Hnoise].
Defined.

Lemma returned_losses_precede_update_witness :
  ∃ res before gv_u gv_E rt',
    step Example.self Example.inputs Example.the_discriminator 3 Example.rt
    = Ok (res, rt') ∧
    trace rt' = trace Example.rt ++ before
                ++ [EvApplyGradients gv_u; EvApplyGradients gv_E] ∧
    applied_gradients before = [].
Proof.
  destruct (returned_losses_precede_update Example.self Example.inputs
              Example.the_discriminator 3 Example.rt Example.X_u Example.X_f 2 1 1 1
              example_step_ready)
    as (? & ? & ? & ? & ? & ? & ? & ? & ? & ? & before & gv_u & gv_E & rt' & Hrun).
  cbv zeta in Hrun.
  destruct Hrun as (Hrun & _ & _ & _ & _ & _ & _ & _ & _ & Htr & Hnone & _).
  eexists _, before, gv_u, gv_E, rt'. split; [exact Hrun|]. split; [exact Htr | exact Hnone].
Defined.

(** ** Saving and loading *)

Section Persistence.
Context `{Arith} `{!Collaborators}.

Lemma layer_holds_app (V ws : list Tensor) (s : SavedLayer) (l : Layer) :
  layer_holds V s l → layer_holds (V ++ ws) s l.
Proof.
  destruct s, l; cbn; try done. intros (-> & Hk & Hb).
  split_and!; [done | by apply lookup_app_l_Some..].
Qed.

Lemma save_layers_holds (V : list Tensor) (ls : list Layer) (ss : list SavedLayer) :
  save_layers V ls = Ok ss → Forall2 (layer_holds V) ss ls.
Proof.
  revert ss. induction ls as [|l ls IH]; intros ss Hsave; cbn in Hsave.
  - injection Hsave as <-. constructor.
  - destruct (save_layer V l) as [s|] eqn:Hs; [|done].
    destruct (save_layers V ls) as [ss'|]; [|done].
    injection Hsave as <-. constructor; [|by apply IH].
    destruct l as [|units kernel bias|fn]; cbn in Hs.
    + by injection Hs as <-.
    + destruct (V !! kernel) as [k|] eqn:Hk; [|done].
      destruct (V !! bias) as [b|] eqn:Hb; [|done].
      injection Hs as <-. by cbn.
    + by injection Hs as <-.
Qed.

Lemma save_layers_stored (V : list Tensor) (ls : list Layer) :
  Forall (λ v, v < length V) (flat_map layer_variables ls) →
  ∃ ss, save_layers V ls = Ok ss.
Proof.
  induction ls as [|l ls IH]; intros Hst; cbn in *; [by eexists|].
  apply Forall_app in Hst as [Hl Hls]. destruct (IH Hls) as [ss ->].
  destruct l as [|units kernel bias|fn]; cbn in *; [by eexists| |by eexists].
  apply Forall_cons in Hl as [Hk Hl]. apply Forall_cons in Hl as [Hb _].
  apply lookup_lt_is_Some_2 in Hk as [k ->].
  apply lookup_lt_is_Some_2 in Hb as [b ->]. by eexists.
Qed.

Lemma holds_run_layers (V V' : list Tensor) (ss : list SavedLayer) (ls ls' : list Layer) :
  Forall2 (layer_holds V) ss ls → Forall2 (layer_holds V') ss ls' →
  ∀ x, run_layers V ls x = run_layers V' ls' x.
Proof.
  intros Hls. revert ls'. induction Hls as [|s l ss ls Hl _ IH]; intros ls' Hls' x.
  - by apply Forall2_nil_inv_l in Hls' as ->.
  - apply Forall2_cons_inv_l in Hls' as (l' & ls'' & Hl' & Hls'' & ->).
    cbn [run_layers].
    assert (run_layer V l x = run_layer V' l' x) as ->.
    { destruct s, l, l'; cbn in Hl, Hl'; try done.
      - destruct Hl as (<- & Hk & Hb), Hl' as (<- & Hk' & Hb').
        cbn [run_layer]. by rewrite Hk, Hb, Hk', Hb'.
      - by subst. }
    destruct (run_layer V' l' x); [|done]. by apply IH.
Qed.

Lemma holds_forward (V V' : list Tensor) (sm : SavedModel) (m m' : Model) :
  model_holds V sm m → model_holds V' sm m' →
  ∀ x, forward V' m' x = forward V m x.
Proof.
  intros (Hi & _ & Hl) (Hi' & _ & Hl') x. unfold forward.
  rewrite <- Hi, <- Hi'. destruct (saved_input sm); [|done].
  destruct (shape x); [done|]. case_decide; [|done].
  symmetry. by eapply holds_run_layers.
Qed.

Lemma load_layer_run (s : SavedLayer) (rt : Runtime) :
  ∃ l ws rt',
    load_layer s rt = Ok (l, rt') ∧ allocates rt rt' ws ∧
    layer_holds (variables rt') s l ∧
    Forall (λ v, length (variables rt) ≤ v) (layer_variables l).
Proof.
  destruct rt as [V O R S F TP TR]. destruct s as [|units k b|fn].
  - exists LFlatten, []. eexists. split; [reflexivity|].
    split; [apply allocates_refl|]. by split.
  - exists (LDense units (length V) (length V + 1)), [k; b]. eexists. split.
    + unfold load_layer.
      erewrite bind_ok; [| apply new_variable_run]. cbv beta.
      erewrite bind_ok; [| apply new_variable_run]. cbv beta.
      cbn [variables set_variables logged set_trace set_tapes].
      rewrite length_app, Nat.add_1_r. cbn [length]. rewrite Nat.add_1_r. reflexivity.
    + split; [unfold allocates; cbn; by rewrite <- app_assoc|].
      cbn [variables set_variables logged set_trace set_tapes layer_holds layer_variables].
      split.
      * split; [done|]. rewrite <- app_assoc. cbn [app].
        split; [by rewrite lookup_at_end | by rewrite lookup_after_end].
      * repeat constructor; lia.
  - exists (LActivation fn), []. eexists. split; [reflexivity|].
    split; [apply allocates_refl|]. by split.
Qed.

Lemma load_layers_run (ss : list SavedLayer) :
  ∀ rt, ∃ ls ws rt',
    load_layers ss rt = Ok (ls, rt') ∧ allocates rt rt' ws ∧
    Forall2 (layer_holds (variables rt')) ss ls ∧
    Forall (λ v, length (variables rt) ≤ v) (flat_map layer_variables ls).
Proof.
  induction ss as [|s ss IH]; intros rt.
  - exists [], [], rt. split; [reflexivity|]. split; [apply allocates_refl|].
    split; constructor.
  - destruct (load_layer_run s rt) as (l & ws & rt1 & Hl & Ha & Hh & Hf).
    destruct (IH rt1) as (ls & ws' & rt2 & Hls & Ha' & Hh' & Hf').
    exists (l :: ls), (ws ++ ws'), rt2. cbn [load_layers].
    rewrite (bind_ok _ _ _ _ _ Hl), (bind_ok _ _ _ _ _ Hls).
    split; [reflexivity|]. split; [by eapply allocates_trans|].
    destruct Ha as [Hv _], Ha' as [Hv' _]. split.
    + constructor; [|done]. rewrite Hv'. by apply layer_holds_app.
    + cbn [flat_map]. apply Forall_app. split; [done|].
      eapply Forall_impl; [exact Hf'|]. intros v. rewrite Hv, length_app. lia.
Qed.

Lemma model_save_run (m : Model) (path : list string) (ss : list SavedLayer)
    (rt : Runtime) :
  save_layers (variables rt) (layers m) = Ok ss →
  model_save m path rt
  = Ok ((), set_files (<[path := mkSavedModel (input_spec m) (output_spec m) ss]>
                         (files rt))
              (logged (EvSave m path) rt)).
Proof.
  intros Hss. unfold model_save.
  rewrite (bind_ok _ _ _ _ _ (log_run _ _)), (bind_ok _ _ _ _ _ (get_run _)).
  erewrite bind_ok; [| apply lift_ok; exact Hss]. reflexivity.
Qed.

Lemma load_model_run (path : list string) (sm : SavedModel) (rt : Runtime) :
  files rt !! path = Some sm →
  ∃ m ws rt',
    load_model path rt = Ok (m, rt') ∧ allocates rt rt' ws ∧
    model_holds (variables rt') sm m ∧
    Forall (λ v, length (variables rt) ≤ v) (trainable_variables m).
Proof.
  intros Hfile. unfold load_model.
  destruct (load_layers_run (saved_layers sm) (logged (EvLoadModel path) rt))
    as (ls & ws & rt' & Hls & Ha & Hh & Hf).
  exists (mkModel (saved_input sm) (saved_output sm) ls), ws, rt'.
  rewrite (bind_ok _ _ _ _ _ (log_run _ _)), (bind_ok _ _ _ _ _ (get_run _)).
  replace (files (logged (EvLoadModel path) rt)) with (files rt) by by destruct rt.
  rewrite Hfile, (bind_ok _ _ _ _ _ Hls).
  split; [reflexivity|]. split.
  - destruct Ha as (Hv & Ho & Hn & Hfs). destruct rt. by split_and!.
  - split; [done|]. by destruct rt.
Qed.

Lemma model_holds_app (V ws : list Tensor) (sm : SavedModel) (m : Model) :
  model_holds V sm m → model_holds (V ++ ws) sm m.
Proof.
  intros (Hi & Ho & Hl). split_and!; [done..|].
  eapply Forall2_impl; [exact Hl|]. intros s l. apply layer_holds_app.
Qed.

End Persistence.

Section SavingAndBuilding.
Context `{Arith} `{!Collaborators}.

Lemma layers_out_stored (V : list Tensor) (ls : list Layer) :
  ∀ k out, layers_out V ls k = Some out →
    Forall (λ v, v < length V) (flat_map layer_variables ls).
Proof.
  induction ls as [|l ls IH]; intros k out Hout; cbn in *; [constructor|].
  destruct l as [|units kernel bias|fn]; cbn; [by eapply IH| |by eapply IH].
  destruct (V !! kernel) as [kt|] eqn:Hk; [|done].
  destruct (V !! bias) as [bt|] eqn:Hb; [|done].
  case_decide; [|done].
  apply lookup_lt_Some in Hk, Hb. repeat constructor; [done..|]. by eapply IH.
Qed.

Lemma model_ok_stored (V : list Tensor) (m : Model) (k out : nat) :
  model_ok V m k out → model_stored V m.
Proof. intros [_ Hout]. by eapply layers_out_stored. Qed.

(** C5: [save] writes the two models to [generator_u.h5] and
    [generator_E.h5] in the directory, each file holding the architecture
    and the current weights of its network; a later [load] from that
    directory, by any generator object and in any runtime with the file
    system [save] left behind, installs networks that compute on every
    input what the saved networks computed when they were saved. *)
Theorem save_then_load_restores (self other : Generator) (dir : list string)
    (rt later : Runtime) :
  model_stored (variables rt) (generator_u self) →
  model_stored (variables rt) (generator_E self) →
  ∃ sm_u sm_E rt1 self' rt2,
    save self dir rt = Ok ((), rt1) ∧
    files rt1 = <[dir ++ ["generator_E.h5"] := sm_E]>
                  (<[dir ++ ["generator_u.h5"] := sm_u]> (files rt)) ∧
    model_holds (variables rt) sm_u (generator_u self) ∧
    model_holds (variables rt) sm_E (generator_E self) ∧
    load other dir (set_files (files rt1) later) = Ok (self', rt2) ∧
    (∀ x, forward (variables rt2) (generator_u self') x
          = forward (variables rt) (generator_u self) x) ∧
    (∀ x, forward (variables rt2) (generator_E self') x
          = forward (variables rt) (generator_E self) x).
Proof.
  intros Hsu HsE.
  destruct (save_layers_stored _ _ Hsu) as [ss_u Hss_u].
  destruct (save_layers_stored _ _ HsE) as [ss_E Hss_E].
  set (sm_u := mkSavedModel (input_spec (generator_u self))
                 (output_spec (generator_u self)) ss_u).
  set (sm_E := mkSavedModel (input_spec (generator_E self))
                 (output_spec (generator_E self)) ss_E).
  assert (Hhu : model_holds (variables rt) sm_u (generator_u self)).
  { split_and!; [done..|]. by apply save_layers_holds. }
  assert (HhE : model_holds (variables rt) sm_E (generator_E self)).
  { split_and!; [done..|]. by apply save_layers_holds. }
  set (p_u := dir ++ ["generator_u.h5"]). set (p_E := dir ++ ["generator_E.h5"]).
  set (fs := <[p_E := sm_E]> (<[p_u := sm_u]> (files rt))).
  assert (Hne : p_E ≠ p_u).
  { unfold p_u, p_E. intros Heq. by apply app_inv_head in Heq. }
  destruct (load_model_run p_u sm_u (set_files fs later))
    as (gu' & ws & rt_b & Hload_u & (Hv & _ & _ & Hf) & Hhu' & _).
  { destruct later. cbn. unfold fs. rewrite lookup_insert_ne by done.
    apply lookup_insert_eq. }
  destruct (load_model_run p_E sm_E rt_b)
    as (gE' & ws' & rt2 & Hload_E & (Hv' & _) & HhE' & _).
  { rewrite Hf. destruct later. cbn. apply lookup_insert_eq. }
  exists sm_u, sm_E.
  exists (set_files fs (logged (EvSave (generator_E self) p_E)
                          (set_files (<[p_u := sm_u]> (files rt))
                             (logged (EvSave (generator_u self) p_u) rt)))).
  exists (mkGenerator (input_shape other) gu' gE'), rt2.
  split.
  { unfold save, joinpath.
    erewrite bind_ok; [| by apply model_save_run].
    erewrite model_save_run; [| by destruct rt]. by destruct rt. }
  split; [by destruct rt|]. do 2 (split; [done|]).
  split.
  { unfold load, joinpath. fold p_u p_E.
    replace (files (set_files fs _)) with fs by by destruct rt.
    by rewrite (bind_ok _ _ _ _ _ Hload_u), (bind_ok _ _ _ _ _ Hload_E). }
  split; intros x; cbn [generator_u generator_E].
  - eapply holds_forward; [exact Hhu|]. rewrite Hv'. by apply model_holds_app.
  - by eapply holds_forward.
Qed.

(** C4: the constructor builds two networks by the same recipe.  Each is
    declared for [input_shape] and consists of a [Flatten] layer, four
    [Dense] layers of 128 units each followed by a [tanh] activation, and a
    last [Dense] layer without activation; the last layer has two units in
    [generator_u] and one in [generator_E].  The twenty variables of these
    layers are created by the constructor, kernels and biases having the
    shapes of the recipe. *)
Theorem constructor_builds_two_networks (input_shape : list nat) (rt : Runtime) :
  ∃ ws_u ws_E rt',
    let v := length (variables rt) in
    let stack (v dim : nat) :=
      [LFlatten;
       LDense 128 v (v + 1); LActivation Tanh;
       LDense 128 (v + 2) (v + 3); LActivation Tanh;
       LDense 128 (v + 4) (v + 5); LActivation Tanh;
       LDense 128 (v + 6) (v + 7); LActivation Tanh;
       LDense dim (v + 8) (v + 9)] in
    let widths (dim : nat) :=
      [[numel input_shape; 128]; [128]; [128; 128]; [128]; [128; 128]; [128];
       [128; 128]; [128]; [128; dim]; [dim]] in
    __init__ input_shape rt
    = Ok (mkGenerator input_shape
            (mkModel (Some input_shape) (Some [2]) (stack v 2))
            (mkModel (Some input_shape) (Some [1]) (stack (v + 10) 1)),
          rt') ∧
    variables rt' = variables rt ++ ws_u ++ ws_E ∧
    shape <$> ws_u = widths 2 ∧ shape <$> ws_E = widths 1 ∧
    gen_opt rt' = gen_opt rt ∧ noise_sampler rt' = noise_sampler rt ∧
    files rt' = files rt.
Proof.
  destruct (init_run input_shape rt) as (ws_u & ws_E & rt' & Hrun & Hu & HE & Ha).
  exists ws_u, ws_E, rt'. cbv zeta in *.
  destruct Ha as (Hv & Ho & Hn & Hf). by split_and!.
Qed.

End SavingAndBuilding.

Lemma save_then_load_restores_witness :
  ∃ rt1 self' rt2,
    save Example.self ["models"] Example.rt = Ok ((), rt1) ∧
    load Example.self ["models"] (set_files (files rt1) Example.rt) = Ok (self', rt2) ∧
    ∀ x, forward (variables rt2) (generator_u self') x
         = forward (variables Example.rt) (generator_u Example.self) x.
Proof.
  destruct (save_then_load_restores Example.self Example.self ["models"]
              Example.rt Example.rt)
    as (sm_u & sm_E & rt1 & self' & rt2 & Hsave & _ & _ & _ & Hload & Hu & _).
  - exact (model_ok_stored _ _ _ _ (proj1 example_generator_ok)).
  - exact (model_ok_stored _ _ _ _ (proj2 example_generator_ok)).
  - exists rt1, self', rt2. by split_and!.
Defined.

(** ** What each method may change *)

Section Frames.
Context `{Arith} `{!Collaborators}.

Lemma keeps_ret {A} (a : A) : keeps_weights (mret a : M A).
Proof. intros rt a' rt' [= <- <-]. done. Qed.

Lemma keeps_bind {A B} (m : M A) (k : A → M B) :
  keeps_weights m → (∀ a, keeps_weights (k a)) → keeps_weights (m ≫= k).
Proof.
  intros Hm Hk rt b rt' Hrun.
  apply bind_inv in Hrun as (a & rt1 & Hm1 & Hk1).
  destruct (Hm _ _ _ Hm1) as [Hv Ho], (Hk _ _ _ _ Hk1) as [Hv' Ho'].
  split; congruence.
Qed.

Lemma keeps_lift {A} (r : result A) : keeps_weights (lift r).
Proof. intros rt a rt' Hrun. by apply lift_inv in Hrun as [_ ->]. Qed.

Lemma keeps_raise {A} (e : exn) : keeps_weights (raise e : M A).
Proof. intros rt a rt' Hrun. done. Qed.

Lemma keeps_log (ev : Event) : keeps_weights (log ev).
Proof. intros rt a rt' [= <- <-]. by destruct rt. Qed.

(** A primitive that reads the state and writes back a state with the same
    weights. *)
Ltac keeps_direct :=
  let rt := fresh "rt" in let Hrun := fresh "Hrun" in
  intros rt ? ? Hrun; destruct rt;
  unfold mbind, mret, M_bind, M_ret, bind, ret, get, put, log, lift, raise in Hrun;
  cbn in Hrun; repeat case_match; simplify_eq; done.

Ltac keeps :=
  repeat first
    [ apply keeps_ret | apply keeps_lift | apply keeps_raise | apply keeps_log
    | apply keeps_bind; [| intros ?] ].

Lemma keeps_tile (x : Tensor) (ms : list nat) : keeps_weights (tile x ms).
Proof. unfold tile. keeps. Qed.

Lemma keeps_concat1 (xs : list Tensor) : keeps_weights (concat1 xs).
Proof.
  unfold concat1. keeps. destruct xs as [|x rest]; [keeps|].
  generalize (mret x : M Tensor) (keeps_ret x).
  induction rest as [|y rest IH]; intros acc Hacc; cbn [foldl]; [done|].
  apply IH. keeps. done.
Qed.

Lemma keeps_reshape (x : Tensor) (dims : list Z) : keeps_weights (reshape x dims).
Proof. unfold reshape. keeps. Qed.

Lemma keeps_call (m : Model) (x : Tensor) (t : option bool) : keeps_weights (call m x t).
Proof. unfold call. keeps_direct. Qed.

Lemma keeps_sample_noise (n m : nat) : keeps_weights (sample_noise n m).
Proof. unfold sample_noise. keeps_direct. Qed.

Lemma keeps_model_save (m : Model) (path : list string) :
  keeps_weights (model_save m path).
Proof. unfold model_save. keeps_direct. Qed.

Lemma keeps_GradientTape (p : bool) : keeps_weights (GradientTape p).
Proof. unfold GradientTape. keeps_direct. Qed.

Lemma keeps_getitem (d : gmap string Tensor) (key : string) :
  keeps_weights (getitem d key).
Proof. unfold getitem. destruct (d !! key); keeps. Qed.

Lemma keeps_index {A} (l : list A) (i : nat) : keeps_weights (index l i).
Proof. unfold index. destruct (l !! i); keeps. Qed.

Lemma keeps_watch (h : nat) (x : Tensor) : keeps_weights (watch h x).
Proof. unfold watch, get_tape. keeps_direct. Qed.

Lemma keeps_tape_exit (h : nat) : keeps_weights (tape_exit h).
Proof. unfold tape_exit, get_tape. keeps_direct. Qed.

Lemma keeps_gradient (h : nat) (target : Tensor) (sources : list (list nat)) :
  keeps_weights (gradient h target sources).
Proof. unfold gradient, get_tape. keeps_direct. Qed.

Lemma keeps_call_discriminator (d : Discriminator) (x : Tensor) (t : bool) :
  keeps_weights (call_discriminator d x t).
Proof. unfold call_discriminator. keeps. Qed.

Lemma keeps_add (a b : Tensor) : keeps_weights (add_ a b).
Proof. unfold add_. keeps. Qed.

Lemma keeps_loss (self : Generator) (fake_output : Tensor) (h : nat)
    (terms : gmap string Tensor) :
  keeps_weights (_loss self fake_output h terms).
Proof.
  unfold _loss, reduce_mean, neg.
  keeps; unfold pde_loss, bc_loss_, get_tape; keeps_direct.
Qed.

Lemma keeps_del (h : nat) : keeps_weights (del h).
Proof. unfold del. keeps. Qed.

(** Methods are sequences of primitives. *)
Ltac keeps_method :=
  repeat first
    [ apply keeps_GradientTape | apply keeps_getitem | apply keeps_tile
    | apply keeps_sample_noise | apply keeps_concat1 | apply keeps_call
    | apply keeps_reshape | apply keeps_watch | apply keeps_call_discriminator
    | apply keeps_loss | apply keeps_add | apply keeps_tape_exit
    | apply keeps_gradient | apply keeps_index | apply keeps_del
    | apply keeps_model_save | apply keeps_lift | apply keeps_ret
    | apply keeps_bind; [| intros ?] ].

Lemma keeps_call_method (self : Generator) (X z : Tensor) :
  keeps_weights (__call__ self X z).
Proof. unfold __call__. keeps_method. Qed.

Lemma keeps_generate (self : Generator) (X : Tensor) (m : nat) :
  keeps_weights (generate self X m).
Proof. unfold generate. keeps_method. Qed.

Lemma keeps_save (self : Generator) (dir : list string) :
  keeps_weights (save self dir).
Proof. unfold save. keeps_method. Qed.

(** *** In-place updates *)

Lemma keeps_touches {A} (vs : list nat) (c : M A) :
  keeps_weights c → touches_only vs c.
Proof. intros Hc rt a rt' Hrun. destruct (Hc _ _ _ Hrun) as [-> _]. done. Qed.

Lemma touches_bind {A B} (vs : list nat) (m : M A) (k : A → M B) :
  touches_only vs m → (∀ a, touches_only vs (k a)) → touches_only vs (m ≫= k).
Proof.
  intros Hm Hk rt b rt' Hrun.
  apply bind_inv in Hrun as (a & rt1 & Hm1 & Hk1).
  destruct (Hm _ _ _ Hm1) as [Hlen Hsame], (Hk _ _ _ _ Hk1) as [Hlen' Hsame'].
  split; [congruence|]. intros i Hi. rewrite Hsame' by done. by apply Hsame.
Qed.

Lemma touches_mono {A} (vs vs' : list nat) (c : M A) :
  vs ⊆ vs' → touches_only vs c → touches_only vs' c.
Proof.
  intros Hsub Hc rt a rt' Hrun. destruct (Hc _ _ _ Hrun) as [Hlen Hsame].
  split; [done|]. intros i Hi. apply Hsame. intros Hin. by apply Hi, Hsub.
Qed.

Lemma assign_all_frame (o : OptState) (gvs : list (Tensor * nat)) :
  ∀ vars, length (assign_all o gvs vars) = length vars ∧
          ∀ i, i ∉ gvs.*2 → assign_all o gvs vars !! i = vars !! i.
Proof.
  unfold assign_all. induction gvs as [|[g v] gvs IH]; intros vars; cbn [foldl]; [done|].
  cbn [fmap list_fmap snd]. destruct (vars !! v) as [old|] eqn:Hold; cbn [snd fst].
  - destruct (IH (<[v := opt_update o v g old]> vars)) as [Hlen Hsame].
    rewrite Hlen, length_insert. split; [done|]. intros i Hi.
    apply not_elem_of_cons in Hi as [Hne Hi].
    rewrite Hsame by done. by apply list_lookup_insert_ne.
  - destruct (IH vars) as [Hlen Hsame]. split; [done|]. intros i Hi.
    apply not_elem_of_cons in Hi as [_ Hi]. by apply Hsame.
Qed.

Lemma touches_apply_gradients (gvs : list (Tensor * nat)) :
  touches_only gvs.*2 (apply_gradients gvs).
Proof.
  intros rt a rt' Hrun. rewrite apply_gradients_run in Hrun.
  injection Hrun as _ <-. destruct rt. cbn. apply assign_all_frame.
Qed.

Lemma zip_snd_subseteq {A B} (l : list A) (k : list B) : (zip l k).*2 ⊆ k.
Proof.
  revert k. induction l as [|x l IH]; intros [|y k]; cbn;
    [done | apply list_subseteq_nil | done |].
  intros i Hi. apply elem_of_cons in Hi as [->|Hi]; [left|right]. by apply IH.
Qed.

Lemma touches_step (self : Generator) (inputs : gmap string Tensor) (D : Discriminator)
    (b : nat) :
  touches_only (trainable_variables (generator_u self)
                ++ trainable_variables (generator_E self))
               (step self inputs D b).
Proof.
  unfold step.
  repeat first
    [ match goal with
      | |- touches_only _ (apply_gradients _) =>
          eapply touches_mono; [| apply touches_apply_gradients];
          intros i Hi; apply zip_snd_subseteq in Hi; apply elem_of_app; by eauto
      | |- touches_only _ (match ?x with _ => _ end) => destruct x
      | |- touches_only _ (_ ≫= _) => apply touches_bind; [| intros ?]
      end
    | apply keeps_touches;
      first [ apply keeps_GradientTape | apply keeps_getitem | apply keeps_tile
            | apply keeps_sample_noise | apply keeps_concat1
            | apply keeps_call | apply keeps_reshape | apply keeps_watch
            | apply keeps_call_discriminator | apply keeps_loss | apply keeps_add
            | apply keeps_tape_exit | apply keeps_gradient | apply keeps_index
            | apply keeps_del | apply keeps_lift | apply keeps_ret ] ].
Qed.

Lemma load_fresh (self : Generator) (dir : list string) (rt rt' : Runtime)
    (self' : Generator) :
  load self dir rt = Ok (self', rt') →
  ∃ ws, variables rt' = variables rt ++ ws ∧ gen_opt rt' = gen_opt rt ∧
        Forall (λ v, length (variables rt) ≤ v)
               (trainable_variables (generator_u self')
                ++ trainable_variables (generator_E self')).
Proof.
  unfold load. intros Hrun.
  apply bind_inv in Hrun as (gu & rt1 & Hu & Hrun).
  apply bind_inv in Hrun as (gE & rt2 & HE & Hrun).
  injection Hrun as <- <-. cbn [generator_u generator_E].
  destruct (files rt !! joinpath dir "generator_u.h5") as [sm_u|] eqn:Hfu.
  2:{ unfold load_model in Hu.
      rewrite (bind_ok _ _ _ _ _ (log_run _ _)), (bind_ok _ _ _ _ _ (get_run _)) in Hu.
      replace (files (logged _ rt)) with (files rt) in Hu by by destruct rt.
      by rewrite Hfu in Hu. }
  destruct (load_model_run _ _ _ Hfu) as (gu' & ws & rt1' & Hu' & (Hv & Ho & _) & _ & Hfr).
  rewrite Hu in Hu'. injection Hu' as <- <-.
  destruct (files rt1 !! joinpath dir "generator_E.h5") as [sm_E|] eqn:HfE.
  2:{ unfold load_model in HE.
      rewrite (bind_ok _ _ _ _ _ (log_run _ _)), (bind_ok _ _ _ _ _ (get_run _)) in HE.
      replace (files (logged _ rt1)) with (files rt1) in HE by by destruct rt1.
      by rewrite HfE in HE. }
  destruct (load_model_run _ _ _ HfE) as (gE' & ws' & rt2' & HE' & (Hv' & Ho' & _) & _ & Hfr').
  rewrite HE in HE'. injection HE' as <- <-.
  exists (ws ++ ws'). rewrite Hv', Hv, Ho', Ho, app_assoc. split_and!; [done..|].
  apply Forall_app. split; [done|].
  eapply Forall_impl; [exact Hfr'|]. intros v. rewrite Hv, length_app. lia.
Qed.

(** C10: [__call__], [generate] and [save] leave every variable and the
    optimizer as they found them.  [step] keeps the store at its size and
    changes no variable other than the trainable variables of the two
    networks, which it assigns in place.  [load] changes no existing
    variable either: the networks it installs are new objects, all of
    whose variables are created by the load. *)
Theorem only_step_and_load_change_the_networks (self : Generator) :
  (∀ X z, keeps_weights (__call__ self X z)) ∧
  (∀ X m, keeps_weights (generate self X m)) ∧
  (∀ dir, keeps_weights (save self dir)) ∧
  (∀ inputs D b,
     touches_only (trainable_variables (generator_u self)
                   ++ trainable_variables (generator_E self))
                  (step self inputs D b)) ∧
  (∀ dir rt self' rt',
     load self dir rt = Ok (self', rt') →
     ∃ ws, variables rt' = variables rt ++ ws ∧ gen_opt rt' = gen_opt rt ∧
           Forall (λ v, length (variables rt) ≤ v)
                  (trainable_variables (generator_u self')
                   ++ trainable_variables (generator_E self'))).
Proof.
  split_and!.
  - apply keeps_call_method.
  - apply keeps_generate.
  - apply keeps_save.
  - apply touches_step.
  - intros dir rt self' rt'. apply load_fresh.
Qed.

End Frames.

Lemma only_step_and_load_change_the_networks_witness :
  ∃ res rt',
    generate Example.self Example.X_u 2 Example.rt = Ok (res, rt') ∧
    variables rt' = variables Example.rt ∧ gen_opt rt' = gen_opt Example.rt.
Proof.
  destruct (generate_run Example.self Example.X_u 2 2 1 1 Example.rt
              example_generator_ok example_noise_width eq_refl)
    as (? & ? & ? & ? & rt' & _ & _ & _ & _ & Hrun & _); [lia..|].
  destruct (@only_step_and_load_change_the_networks Example.arith_Z Example.collaborators
              Example.self) as (_ & Hgen & _).
  destruct (Hgen _ _ _ _ _ Hrun) as [Hv Ho].
  eexists _, rt'. split; [exact Hrun|]. split; [exact Hv | exact Ho].
Defined.

(** * Further properties *)

(** ** Rejected inputs *)

Section Rejections.
Context `{Arith} `{!Collaborators}.

Lemma load_model_missing (path : list string) (rt : Runtime) :
  files rt !! path = None → load_model path rt = Raise OSError.
Proof.
  intros Hnone. unfold load_model.
  rewrite (bind_ok _ _ _ _ _ (log_run _ _)), (bind_ok _ _ _ _ _ (get_run _)).
  replace (files (logged (EvLoadModel path) rt)) with (files rt) by by destruct rt.
  by rewrite Hnone.
Qed.

Lemma tile_inv (x y : Tensor) (ms : list nat) (rt rt' : Runtime) :
  tile x ms rt = Ok (y, rt') → tf_tile x ms = Ok y.
Proof.
  unfold tile. rewrite (bind_ok _ _ _ _ _ (log_run _ _)).
  intros Hrun. by apply lift_inv in Hrun as [? _].
Qed.

Lemma init_files (input_shape : list nat) (rt rt' : Runtime) (self : Generator) :
  __init__ input_shape rt = Ok (self, rt') → files rt' = files rt.
Proof.
  intros Hinit.
  destruct (init_run input_shape rt) as (ws_u & ws_E & rt2 & Hrun & _ & _ & _ & _ & _ & Hf).
  cbv zeta in Hrun. rewrite Hrun in Hinit. by injection Hinit as _ <-.
Qed.

(** X1: [step] looks both coordinate arrays up by name: a dictionary without
    ["X_u"] or without ["X_f"] makes it raise [KeyError]. *)
Theorem step_missing_key (self : Generator) (inputs : gmap string Tensor)
    (D : Discriminator) (b : nat) (rt : Runtime) :
  inputs !! "X_u" = None ∨ inputs !! "X_f" = None →
  step self inputs D b rt = Raise KeyError.
Proof.
  intros Hmissing. unfold step.
  rewrite (bind_ok _ _ _ _ _ (GradientTape_run _ _)).
  destruct (inputs !! "X_u") as [X_u|] eqn:HXu.
  - destruct Hmissing as [|HXf]; [done|].
    rewrite (bind_ok _ _ _ _ _ (getitem_run _ _ _ _ HXu)).
    apply bind_raise. unfold getitem. by rewrite HXf.
  - apply bind_raise. unfold getitem. by rewrite HXu.
Qed.

(** X2: [load] needs both files: when [generator_u.h5] or [generator_E.h5] is
    not in the directory it raises [OSError]. *)
Theorem load_missing_file (self : Generator) (dir : list string) (rt : Runtime) :
  files rt !! joinpath dir "generator_u.h5" = None ∨
  files rt !! joinpath dir "generator_E.h5" = None →
  load self dir rt = Raise OSError.
Proof.
  intros Hmissing. unfold load.
  destruct (files rt !! joinpath dir "generator_u.h5") as [sm_u|] eqn:Hu.
  - destruct Hmissing as [|HE]; [done|].
    destruct (load_model_run _ _ _ Hu) as (gu & ws & rt1 & Hload & (_ & _ & _ & Hf) & _).
    rewrite (bind_ok _ _ _ _ _ Hload). apply bind_raise.
    apply load_model_missing. by rewrite Hf.
  - apply bind_raise. by apply load_model_missing.
Qed.

(** X3: [__call__] concatenates coordinates and noise row by row: when they do
    not have the same number of rows the concatenation is rejected and no
    network is run. *)
Theorem call_rows_mismatch (self : Generator) (X z : Tensor) (r r' d k : nat)
    (rt : Runtime) :
  shape X = [r; d] → shape z = [r'; k] → r ≠ r' →
  __call__ self X z rt = Raise InvalidArgument.
Proof.
  intros HX Hz Hne. unfold __call__. apply bind_raise.
  unfold concat1. rewrite (bind_ok _ _ _ _ _ (log_run _ _)). cbn [foldl].
  rewrite (bind_ok _ _ _ _ _ (mret_run X _)).
  unfold tf_concat1. rewrite HX, Hz.
  rewrite decide_False by (intros [? _]; done). reflexivity.
Qed.

(** X4: the networks accept rows of one width only: when the coordinates and
    the noise together have another width, [generate] raises [ValueError]
    at the first forward pass. *)
Theorem generate_wrong_width (self : Generator) (X : Tensor) (m n d k w : nat)
    (rt : Runtime) :
  input_spec (generator_u self) = Some [w] → noise_width k →
  shape X = [n; d] → d + k ≠ w →
  generate self X m rt = Raise ValueError.
Proof.
  intros Hspec Hnoise HX Hne.
  destruct rt as [V O R S F TP TR]. cbn [variables noise_sampler] in *.
  pose proof (Hnoise R n m) as Hsn.
  destruct (noise_draw R n m) as [noise rng] eqn:Hdraw. cbn [fst] in Hsn.
  pose proof (tf_tile_rows X n d m HX) as Htile.
  set (X_g := mkTensor [n * m; d] _) in Htile.
  destruct (tf_concat1_rows X_g noise (n * m) d k eq_refl Hsn) as (inp & Hcat & Hinp).
  assert (Hs0 : shape0 X = Ok n) by (unfold shape0; by rewrite HX).
  unfold generate.
  run_with @lift_ok. run_with sample_noise_run. run_with tile_run.
  run_with concat1_run. apply bind_raise.
  unfold call. rewrite (bind_ok _ _ _ _ _ (log_run _ _)), (bind_ok _ _ _ _ _ (get_run _)).
  unfold forward. rewrite Hspec, Hinp.
  rewrite decide_False by (intros [= ?]; done). reflexivity.
Qed.

(** X5: coordinates have to be a matrix: [generate] returns nothing for an
    array whose rank is not two, and neither does [step] when [X_u] is such
    an array. *)
Theorem coordinates_must_be_matrix (self : Generator) (inputs : gmap string Tensor)
    (D : Discriminator) (X : Tensor) (m b : nat) (rt : Runtime) :
  inputs !! "X_u" = Some X → length (shape X) ≠ 2 →
  ¬ is_Ok (generate self X m rt) ∧ ¬ is_Ok (step self inputs D b rt).
Proof.
  intros HX Hrank.
  assert (Htile : ∀ c y, tf_tile X [c; 1] ≠ Ok y).
  { intros c y. unfold tf_tile. by rewrite decide_False by (cbn; congruence). }
  split; intros Hok.
  - destruct (generate self X m rt) as [[res rt']|e] eqn:Hrun; [|done].
    unfold generate in Hrun.
    apply bind_inv in Hrun as (n & rt1 & _ & Hrun).
    apply bind_inv in Hrun as (noise & rt2 & _ & Hrun).
    apply bind_inv in Hrun as (X_g & rt3 & Ht & _).
    apply tile_inv in Ht. by eapply Htile.
  - destruct (step self inputs D b rt) as [[res rt']|e] eqn:Hrun; [|done].
    unfold step in Hrun.
    rewrite (bind_ok _ _ _ _ _ (GradientTape_run _ _)) in Hrun.
    rewrite (bind_ok _ _ _ _ _ (getitem_run _ _ _ _ HX)) in Hrun.
    apply bind_inv in Hrun as (X_f & rt1 & _ & Hrun).
    apply bind_inv in Hrun as (X_g & rt2 & Ht & _).
    apply tile_inv in Ht. by eapply Htile.
Qed.

End Rejections.

Lemma example_files : files Example.rt = ∅.
Proof. exact (init_files [2] Example.rt0 Example.rt Example.self example_built). Qed.

Lemma step_missing_key_witness :
  step Example.self ∅ Example.the_discriminator 3 Example.rt = Raise KeyError.
Proof. apply step_missing_key. left. reflexivity. Defined.

Lemma load_missing_file_witness :
  load Example.self ["models"] Example.rt = Raise OSError.
Proof. apply load_missing_file. left. rewrite example_files. reflexivity. Defined.

Lemma call_rows_mismatch_witness :
  __call__ Example.self Example.X_u Example.X_f Example.rt = Raise InvalidArgument.
Proof. apply (call_rows_mismatch _ _ _ 2 1 1 1); [reflexivity | reflexivity | lia]. Defined.

Lemma generate_wrong_width_witness :
  generate Example.self Example.X_wide 2 Example.rt = Raise ValueError.
Proof.
  apply (generate_wrong_width _ _ 2 1 2 1 2).
  - exact (proj1 (proj1 example_generator_ok)).
  - exact example_noise_width.
  - reflexivity.
  - lia.
Defined.

Lemma coordinates_must_be_matrix_witness :
  ¬ is_Ok (generate Example.self Example.X_flat 2 Example.rt) ∧
  ¬ is_Ok (step Example.self (<["X_u" := Example.X_flat]> ∅) Example.the_discriminator 3
             Example.rt).
Proof. apply coordinates_must_be_matrix; [reflexivity | cbn; lia]. Defined.

(** ** Training keeps the networks well formed *)

Section TrainingInvariant.
Context `{Arith} `{!Collaborators}.

Lemma assign_all_shapes (o : OptState) (gvs : list (Tensor * nat)) :
  shape_preserving_optimizer →
  ∀ vars, shape <$> assign_all o gvs vars = shape <$> vars.
Proof.
  intros Hopt. unfold assign_all.
  induction gvs as [|[g v] gvs IH]; intros vars; cbn [foldl]; [done|].
  cbn [fst snd]. destruct (vars !! v) as [old|] eqn:Hold; [|apply IH].
  rewrite IH, list_fmap_insert, Hopt.
  apply list_insert_id. by rewrite list_lookup_fmap, Hold.
Qed.

Lemma layers_out_shapes (V V' : list Tensor) (ls : list Layer) :
  shape <$> V = shape <$> V' →
  ∀ k, layers_out V ls k = layers_out V' ls k.
Proof.
  intros Hsh.
  assert (Hlook : ∀ i, shape <$> V !! i = shape <$> V' !! i).
  { intros i. by rewrite <- !list_lookup_fmap, Hsh. }
  induction ls as [|l ls IH]; intros k; [done|].
  destruct l as [|units kernel bias|fn]; cbn [layers_out]; [apply IH| |apply IH].
  pose proof (Hlook kernel) as Hk. pose proof (Hlook bias) as Hb.
  destruct (V !! kernel) as [kt|], (V' !! kernel) as [kt'|]; try done.
  destruct (V !! bias) as [bt|], (V' !! bias) as [bt'|]; try done.
  cbn in Hk, Hb. injection Hk as ->. injection Hb as ->.
  by rewrite IH.
Qed.

Lemma generator_ok_shapes (rt rt' : Runtime) (self : Generator) (k : nat) :
  shape <$> variables rt' = shape <$> variables rt →
  generator_ok rt self k → generator_ok rt' self k.
Proof.
  intros Hsh [[Hiu Hu] [HiE HE]].
  split; (split; [done|]); by rewrite (layers_out_shapes _ _ _ Hsh).
Qed.

(** X6: with an optimizer that keeps the shape of every variable, a training
    step that was ready to run leaves the runtime ready for the next one:
    the networks are still well formed for the same input width. *)
Theorem step_keeps_ready (self : Generator) (inputs : gmap string Tensor)
    (D : Discriminator) (b : nat) (rt : Runtime) (X_u X_f : Tensor) (n_u n_f d k : nat) :
  step_ready self inputs b rt X_u X_f n_u n_f d k →
  shape_preserving_optimizer →
  ∃ res rt',
    step self inputs D b rt = Ok (res, rt') ∧
    shape <$> variables rt' = shape <$> variables rt ∧
    step_ready self inputs b rt' X_u X_f n_u n_f d k.
Proof.
  intros (HXu & HXf & HsXu & HsXf & Hb & Hnoise & Hlosses & Hok) Hopt.
  destruct (step_run self inputs D b rt X_u X_f n_u n_f d k
              HXu HXf HsXu HsXf Hb Hnoise Hlosses Hok)
    as (X_u_g & X_f_g & u_inputs & f_inputs & generated_u & snapshots & generated_f_u
        & generated_f_E & s & total & rt' & Hrun).
  cbv zeta in Hrun.
  destruct Hrun as (_ & _ & _ & _ & _ & _ & _ & _ & _ & _ & Hrun & _ & Hvars & _).
  eexists _, rt'. split; [exact Hrun|].
  assert (Hsh : shape <$> variables rt' = shape <$> variables rt).
  { rewrite Hvars. by rewrite !assign_all_shapes. }
  split; [done|]. split_and!; try done. by eapply generator_ok_shapes.
Qed.

End TrainingInvariant.

Lemma example_shape_preserving :
  @shape_preserving_optimizer Example.arith_Z Example.collaborators.
Proof. intros o v g old. reflexivity. Qed.

Lemma step_keeps_ready_witness :
  ∃ res rt',
    step Example.self Example.inputs Example.the_discriminator 3 Example.rt
    = Ok (res, rt') ∧
    step_ready Example.self Example.inputs 3 rt' Example.X_u Example.X_f 2 1 1 1.
Proof.
  destruct (step_keeps_ready Example.self Example.inputs Example.the_discriminator 3
              Example.rt Example.X_u Example.X_f 2 1 1 1
              example_step_ready example_shape_preserving)
    as (res & rt' & Hrun & _ & Hready).
  exists res, rt'. split; [exact Hrun | exact Hready].
Defined.

(** ** The two networks have their own weights *)

Section OwnWeights.
Context `{Arith} `{!Collaborators}.

Lemma recipe_variables (v : nat) (input_shape : list nat) (dim : nat) :
  trainable_variables (recipe v input_shape dim) = (λ i, v + i) <$> seq 0 10.
Proof.
  unfold trainable_variables, recipe. cbn. by rewrite Nat.add_0_r.
Qed.

(** X7: the constructor gives [generator_u] and [generator_E] twenty distinct
    variables, ten each, all of them created by the constructor: the
    networks share no weight with each other or with anything that
    existed before. *)
Theorem constructor_shares_no_weights (input_shape : list nat) (rt : Runtime) :
  ∃ self rt',
    __init__ input_shape rt = Ok (self, rt') ∧
    length (trainable_variables (generator_u self)) = 10 ∧
    length (trainable_variables (generator_E self)) = 10 ∧
    NoDup (trainable_variables (generator_u self)
           ++ trainable_variables (generator_E self)) ∧
    Forall (λ v, length (variables rt) ≤ v < length (variables rt'))
           (trainable_variables (generator_u self)
            ++ trainable_variables (generator_E self)).
Proof.
  destruct (init_run input_shape rt) as (ws_u & ws_E & rt' & Hrun & Hu & HE & Hv & _).
  cbv zeta in Hrun. eexists _, rt'. split; [exact Hrun|].
  cbn [generator_u generator_E]. rewrite !recipe_variables.
  assert (Hlu : length ws_u = 10) by by rewrite <- (length_fmap shape), Hu.
  assert (HlE : length ws_E = 10) by by rewrite <- (length_fmap shape), HE.
  assert (Hall : ((λ i, length (variables rt) + i) <$> seq 0 10)
                 ++ ((λ i, length (variables rt) + 10 + i) <$> seq 0 10)
                 = (λ i, length (variables rt) + i) <$> seq 0 20).
  { cbn [fmap list_fmap seq app]. rewrite <- !Nat.add_assoc. reflexivity. }
  split; [by rewrite length_fmap, length_seq|].
  split; [by rewrite length_fmap, length_seq|].
  rewrite Hall. split.
  - apply NoDup_fmap_2; [|apply NoDup_seq]. intros i j. lia.
  - apply Forall_fmap, Forall_forall. intros i Hi. apply elem_of_seq in Hi.
    cbn. rewrite Hv, !length_app, Hlu, HlE. lia.
Qed.

End OwnWeights.

(** ** Checkpoints *)

Section Checkpoints.
Context `{Arith} `{!Collaborators}.

Lemma holds_save_layers (V : list Tensor) (ss : list SavedLayer) (ls : list Layer) :
  Forall2 (layer_holds V) ss ls → save_layers V ls = Ok ss.
Proof.
  induction 1 as [|s l ss ls Hl _ IH]; [done|]. cbn [save_layers]. rewrite IH.
  destruct s, l; cbn in Hl; try done.
  - destruct Hl as (<- & Hk & Hb). cbn. by rewrite Hk, Hb.
  - by subst.
Qed.

Lemma save_run (self : Generator) (dir : list string) (sm_u sm_E : SavedModel)
    (rt : Runtime) :
  model_holds (variables rt) sm_u (generator_u self) →
  model_holds (variables rt) sm_E (generator_E self) →
  ∃ rt1,
    save self dir rt = Ok ((), rt1) ∧
    files rt1 = <[joinpath dir "generator_E.h5" := sm_E]>
                  (<[joinpath dir "generator_u.h5" := sm_u]> (files rt)) ∧
    variables rt1 = variables rt.
Proof.
  intros (Hiu & Hou & Hlu) (HiE & HoE & HlE).
  apply holds_save_layers in Hlu, HlE.
  destruct sm_u as [iu ou ssu], sm_E as [iE oE ssE]. cbn in *. subst.
  eexists. split.
  - unfold save. erewrite bind_ok; [| by apply model_save_run].
    apply model_save_run. by destruct rt.
  - by destruct rt.
Qed.

Lemma load_run (other : Generator) (dir : list string) (sm_u sm_E : SavedModel)
    (rt : Runtime) :
  files rt !! joinpath dir "generator_u.h5" = Some sm_u →
  files rt !! joinpath dir "generator_E.h5" = Some sm_E →
  ∃ self' ws rt',
    load other dir rt = Ok (self', rt') ∧ allocates rt rt' ws ∧
    model_holds (variables rt') sm_u (generator_u self') ∧
    model_holds (variables rt') sm_E (generator_E self').
Proof.
  intros Hu HE.
  destruct (load_model_run _ _ _ Hu) as (gu & ws & rt1 & Hlu & Ha & Hhu & _).
  assert (HE1 : files rt1 !! joinpath dir "generator_E.h5" = Some sm_E).
  { destruct Ha as (_ & _ & _ & ->). done. }
  destruct (load_model_run _ _ _ HE1) as (gE & ws' & rt2 & HlE & Ha' & HhE & _).
  exists (mkGenerator (input_shape other) gu gE), (ws ++ ws'), rt2.
  unfold load. rewrite (bind_ok _ _ _ _ _ Hlu), (bind_ok _ _ _ _ _ HlE).
  split; [done|]. split; [by eapply allocates_trans|].
  cbn [generator_u generator_E]. split; [|done].
  destruct Ha' as [-> _]. by apply model_holds_app.
Qed.

Lemma stored_holds (V : list Tensor) (m : Model) :
  model_stored V m →
  ∃ sm, model_holds V sm m.
Proof.
  intros Hst. destruct (save_layers_stored _ _ Hst) as [ss Hss].
  exists (mkSavedModel (input_spec m) (output_spec m) ss).
  split_and!; [done..|]. by apply save_layers_holds.
Qed.

(** X8: a checkpoint can be copied by loading and saving it: after [save], a
    [load] from that directory and a [save] of the loaded generator into
    any directory, the new files hold what the first files hold. *)
Theorem resave_writes_same_files (self other : Generator) (dir dir' : list string)
    (rt later : Runtime) :
  model_stored (variables rt) (generator_u self) →
  model_stored (variables rt) (generator_E self) →
  ∃ rt1 self' rt2 rt3,
    save self dir rt = Ok ((), rt1) ∧
    load other dir (set_files (files rt1) later) = Ok (self', rt2) ∧
    save self' dir' rt2 = Ok ((), rt3) ∧
    files rt3 !! joinpath dir' "generator_u.h5"
    = files rt1 !! joinpath dir "generator_u.h5" ∧
    files rt3 !! joinpath dir' "generator_E.h5"
    = files rt1 !! joinpath dir "generator_E.h5".
Proof.
  intros Hsu HsE.
  destruct (stored_holds _ _ Hsu) as [sm_u Hhu], (stored_holds _ _ HsE) as [sm_E HhE].
  destruct (save_run self dir sm_u sm_E rt Hhu HhE) as (rt1 & Hsave & Hf1 & _).
  assert (Hne : ∀ d : list string, joinpath d "generator_E.h5" ≠ joinpath d "generator_u.h5").
  { intros d Heq. unfold joinpath in Heq. by apply app_inv_head in Heq. }
  assert (Hlu : files rt1 !! joinpath dir "generator_u.h5" = Some sm_u).
  { rewrite Hf1, lookup_insert_ne by apply Hne. apply lookup_insert_eq. }
  assert (HlE : files rt1 !! joinpath dir "generator_E.h5" = Some sm_E).
  { rewrite Hf1. apply lookup_insert_eq. }
  destruct (load_run other dir sm_u sm_E (set_files (files rt1) later))
    as (self' & ws & rt2 & Hload & _ & Hhu' & HhE'); [by destruct later..|].
  destruct (save_run self' dir' sm_u sm_E rt2 Hhu' HhE') as (rt3 & Hsave' & Hf3 & _).
  exists rt1, self', rt2, rt3. split_and!; [done..| |].
  - rewrite Hf3, lookup_insert_ne by apply Hne. by rewrite lookup_insert_eq.
  - by rewrite Hf3, lookup_insert_eq.
Qed.

Lemma forward_agree (V V' : list Tensor) (m : Model) :
  (∀ v, v ∈ trainable_variables m → V !! v = V' !! v) →
  ∀ x, forward V m x = forward V' m x.
Proof.
  intros Hagree x. unfold forward.
  destruct (input_spec m); [|done]. destruct (shape x); [done|].
  case_decide; [|done]. revert x Hagree. unfold trainable_variables.
  generalize (layers m). clear. intros ls.
  induction ls as [|l ls IH]; intros x Hagree; [done|]. cbn [run_layers].
  assert (run_layer V l x = run_layer V' l x) as ->.
  { destruct l as [|units kernel bias|fn]; cbn [run_layer]; [done| |done].
    rewrite !(Hagree kernel), !(Hagree bias); [done|..]; cbn; set_solver. }
  destruct (run_layer V' l x); [|done]. apply IH.
  intros v Hv. apply Hagree. cbn [flat_map]. apply elem_of_app. by right.
Qed.

(** X9: networks restored by [load] are copies, not views: a training step on
    the generator that was in memory when they were loaded leaves what the
    restored networks compute unchanged. *)
Theorem loaded_copy_is_independent (self other self' : Generator) (dir : list string)
    (inputs : gmap string Tensor) (D : Discriminator) (b : nat)
    (rt rt1 rt2 : Runtime) (res : Tensor * Tensor * Tensor) :
  model_stored (variables rt) (generator_u self) →
  model_stored (variables rt) (generator_E self) →
  load other dir rt = Ok (self', rt1) →
  step self inputs D b rt1 = Ok (res, rt2) →
  ∀ x, forward (variables rt2) (generator_u self') x
       = forward (variables rt1) (generator_u self') x ∧
       forward (variables rt2) (generator_E self') x
       = forward (variables rt1) (generator_E self') x.
Proof.
  intros Hsu HsE Hload Hstep x.
  destruct (load_fresh _ _ _ _ _ Hload) as (ws & _ & _ & Hfresh).
  destruct (touches_step self inputs D b _ _ _ Hstep) as [_ Hsame].
  assert (Hown : ∀ v, v ∈ trainable_variables (generator_u self')
                          ++ trainable_variables (generator_E self') →
                      variables rt2 !! v = variables rt1 !! v).
  { intros v Hv. apply Hsame. intros Hin.
    rewrite Forall_forall in Hfresh. specialize (Hfresh v Hv).
    unfold model_stored in Hsu, HsE. rewrite Forall_forall in Hsu, HsE.
    apply elem_of_app in Hin as [Hin|Hin]; [apply Hsu in Hin | apply HsE in Hin]; lia. }
  split; apply forward_agree; intros v Hv; apply Hown, elem_of_app; auto.
Qed.

Lemma layers_out_app (V ws : list Tensor) (ls : list Layer) :
  ∀ k out, layers_out V ls k = Some out → layers_out (V ++ ws) ls k = Some out.
Proof.
  induction ls as [|l ls IH]; intros k out Hout; [done|].
  destruct l as [|units kernel bias|fn]; cbn [layers_out] in *; [by apply IH| |by apply IH].
  destruct (V !! kernel) as [kt|] eqn:Hk; [|done].
  destruct (V !! bias) as [bt|] eqn:Hb; [|done].
  rewrite (lookup_app_l_Some _ _ _ _ Hk), (lookup_app_l_Some _ _ _ _ Hb).
  case_decide; [|done]. by apply IH.
Qed.

Lemma step_ready_allocates (self : Generator) (inputs : gmap string Tensor) (b : nat)
    (rt rt' : Runtime) (ws : list Tensor) (X_u X_f : Tensor) (n_u n_f d k : nat) :
  variables rt' = variables rt ++ ws →
  step_ready self inputs b rt X_u X_f n_u n_f d k →
  step_ready self inputs b rt' X_u X_f n_u n_f d k.
Proof.
  intros Hv (? & ? & ? & ? & ? & ? & ? & [[Hiu Hu] [HiE HE]]).
  split_and!; try done. unfold generator_ok, model_ok. rewrite Hv.
  split_and!; [done | by apply layers_out_app | done | by apply layers_out_app].
Qed.

(** Saving, loading and then training all run on a ready runtime. *)
Lemma checkpoint_then_train_run (self other : Generator) (dir : list string)
    (inputs : gmap string Tensor) (D : Discriminator) (b : nat) (rt : Runtime)
    (X_u X_f : Tensor) (n_u n_f d k : nat) :
  step_ready self inputs b rt X_u X_f n_u n_f d k →
  ∃ rt0 self' rt1 res rt2,
    save self dir rt = Ok ((), rt0) ∧
    model_stored (variables rt0) (generator_u self) ∧
    model_stored (variables rt0) (generator_E self) ∧
    load other dir rt0 = Ok (self', rt1) ∧
    step self inputs D b rt1 = Ok (res, rt2).
Proof.
  intros Hready.
  pose proof Hready as (_ & _ & _ & _ & _ & _ & _ & [Hu HE]).
  apply model_ok_stored in Hu, HE.
  destruct (stored_holds _ _ Hu) as [sm_u Hhu], (stored_holds _ _ HE) as [sm_E HhE].
  destruct (save_run self dir sm_u sm_E rt Hhu HhE) as (rt0 & Hsave & Hf0 & Hv0).
  assert (Hne : joinpath dir "generator_E.h5" ≠ joinpath dir "generator_u.h5").
  { intros Heq. unfold joinpath in Heq. by apply app_inv_head in Heq. }
  destruct (load_run other dir sm_u sm_E rt0)
    as (self' & ws & rt1 & Hload & (Hv1 & _) & _).
  { rewrite Hf0, lookup_insert_ne by done. apply lookup_insert_eq. }
  { rewrite Hf0. apply lookup_insert_eq. }
  assert (Hready1 : step_ready self inputs b rt1 X_u X_f n_u n_f d k).
  { apply (step_ready_allocates _ _ _ rt _ ws); [by rewrite Hv1, Hv0 | done]. }
  destruct Hready1 as (HXu & HXf & HsXu & HsXf & Hb & Hnoise & Hlosses & Hok).
  destruct (step_run self inputs D b rt1 X_u X_f n_u n_f d k
              HXu HXf HsXu HsXf Hb Hnoise Hlosses Hok)
    as (? & ? & ? & ? & ? & ? & ? & ? & ? & ? & rt2 & Hrun).
  cbv zeta in Hrun.
  destruct Hrun as (_ & _ & _ & _ & _ & _ & _ & _ & _ & _ & Hrun & _).
  eexists rt0, self', rt1, _, rt2. rewrite Hv0. by split_and!.
Qed.

End Checkpoints.

Lemma resave_writes_same_files_witness :
  ∃ rt1 self' rt2 rt3,
    save Example.self ["models"] Example.rt = Ok ((), rt1) ∧
    load Example.self ["models"] (set_files (files rt1) Example.rt) = Ok (self', rt2) ∧
    save self' ["copy"] rt2 = Ok ((), rt3) ∧
    files rt3 !! joinpath ["copy"] "generator_u.h5"
    = files rt1 !! joinpath ["models"] "generator_u.h5".
Proof.
  destruct (resave_writes_same_files Example.self Example.self ["models"] ["copy"]
              Example.rt Example.rt)
    as (rt1 & self' & rt2 & rt3 & Hsave & Hload & Hsave' & Hu & _).
  - exact (model_ok_stored _ _ _ _ (proj1 example_generator_ok)).
  - exact (model_ok_stored _ _ _ _ (proj2 example_generator_ok)).
  - exists rt1, self', rt2, rt3. by split_and!.
Defined.

Lemma loaded_copy_is_independent_witness :
  ∃ rt0 self' rt1 res rt2,
    save Example.self ["models"] Example.rt = Ok ((), rt0) ∧
    load Example.self ["models"] rt0 = Ok (self', rt1) ∧
    step Example.self Example.inputs Example.the_discriminator 3 rt1 = Ok (res, rt2) ∧
    ∀ x, forward (variables rt2) (generator_u self') x
         = forward (variables rt1) (generator_u self') x.
Proof.
  destruct (checkpoint_then_train_run Example.self Example.self ["models"]
              Example.inputs Example.the_discriminator 3 Example.rt
              Example.X_u Example.X_f 2 1 1 1 example_step_ready)
    as (rt0 & self' & rt1 & res & rt2 & Hsave & Hsu & HsE & Hload & Hstep).
  exists rt0, self', rt1, res, rt2. split_and!; [done..|].
  intros x.
  exact (proj1 (loaded_copy_is_independent Example.self Example.self self' ["models"]
                  Example.inputs Example.the_discriminator 3 rt0 rt1 rt2 res
                  Hsu HsE Hload Hstep x)).
Defined.

(** ** Only [save] writes files *)

Section FileFrame.
Context `{Arith} `{!Collaborators}.

Lemma files_ret {A} (a : A) : keeps_files (mret a : M A).
Proof. by intros rt a' rt' [= <- <-]. Qed.

Lemma files_bind {A B} (m : M A) (k : A → M B) :
  keeps_files m → (∀ a, keeps_files (k a)) → keeps_files (m ≫= k).
Proof.
  intros Hm Hk rt b rt' Hrun.
  apply bind_inv in Hrun as (a & rt1 & Hm1 & Hk1).
  rewrite (Hk _ _ _ _ Hk1). by eapply Hm.
Qed.

Lemma files_lift {A} (r : result A) : keeps_files (lift r).
Proof. intros rt a rt' Hrun. by apply lift_inv in Hrun as [_ ->]. Qed.

Lemma files_raise {A} (e : exn) : keeps_files (raise e : M A).
Proof. by intros rt a rt' Hrun. Qed.

(** A primitive that writes back a state with the files it read. *)
Ltac files_direct :=
  let rt := fresh "rt" in let Hrun := fresh "Hrun" in
  intros rt ? ? Hrun; destruct rt;
  unfold mbind, mret, M_bind, M_ret, bind, ret, get, put, log, lift, raise in Hrun;
  cbn in Hrun; repeat case_match; simplify_eq; done.

Lemma files_log (ev : Event) : keeps_files (log ev).
Proof. files_direct. Qed.

Lemma files_tile (x : Tensor) (ms : list nat) : keeps_files (tile x ms).
Proof. unfold tile. files_direct. Qed.

Lemma files_concat1 (xs : list Tensor) : keeps_files (concat1 xs).
Proof.
  unfold concat1. apply files_bind; [apply files_log|]. intros _.
  destruct xs as [|x rest]; [apply files_raise|].
  generalize (mret x : M Tensor) (files_ret x).
  induction rest as [|y rest IH]; intros acc Hacc; cbn [foldl]; [done|].
  apply IH, files_bind; [done|]. intros a. apply files_lift.
Qed.

Lemma files_reshape (x : Tensor) (dims : list Z) : keeps_files (reshape x dims).
Proof. unfold reshape. files_direct. Qed.

Lemma files_call (m : Model) (x : Tensor) (t : option bool) : keeps_files (call m x t).
Proof. unfold call. files_direct. Qed.

Lemma files_sample_noise (n m : nat) : keeps_files (sample_noise n m).
Proof. unfold sample_noise. files_direct. Qed.

Lemma files_GradientTape (p : bool) : keeps_files (GradientTape p).
Proof. unfold GradientTape. files_direct. Qed.

Lemma files_getitem (d : gmap string Tensor) (key : string) : keeps_files (getitem d key).
Proof. unfold getitem. destruct (d !! key); [apply files_ret | apply files_raise]. Qed.

Lemma files_index {A} (l : list A) (i : nat) : keeps_files (index l i).
Proof. unfold index. destruct (l !! i); [apply files_ret | apply files_raise]. Qed.

Lemma files_watch (h : nat) (x : Tensor) : keeps_files (watch h x).
Proof. unfold watch, get_tape. files_direct. Qed.

Lemma files_tape_exit (h : nat) : keeps_files (tape_exit h).
Proof. unfold tape_exit, get_tape. files_direct. Qed.

Lemma files_gradient (h : nat) (target : Tensor) (sources : list (list nat)) :
  keeps_files (gradient h target sources).
Proof. unfold gradient, get_tape. files_direct. Qed.

Lemma files_call_discriminator (d : Discriminator) (x : Tensor) (t : bool) :
  keeps_files (call_discriminator d x t).
Proof. unfold call_discriminator. files_direct. Qed.

Lemma files_add (a b : Tensor) : keeps_files (add_ a b).
Proof. unfold add_. files_direct. Qed.

Lemma files_reduce_mean (x : Tensor) : keeps_files (reduce_mean x).
Proof. unfold reduce_mean. files_direct. Qed.

Lemma files_neg (x : Tensor) : keeps_files (neg x).
Proof. unfold neg. files_direct. Qed.

Lemma files_pde_loss (terms : gmap string Tensor) (h : nat) : keeps_files (pde_loss terms h).
Proof. unfold pde_loss, get_tape. files_direct. Qed.

Lemma files_bc_loss (gu gE : Model) (h : nat) : keeps_files (bc_loss_ gu gE h).
Proof. unfold bc_loss_, get_tape. files_direct. Qed.

Lemma files_apply_gradients (gvs : list (Tensor * nat)) : keeps_files (apply_gradients gvs).
Proof. unfold apply_gradients. files_direct. Qed.

Lemma files_del (h : nat) : keeps_files (del h).
Proof. unfold del. apply files_ret. Qed.

Lemma files_new_variable (t : Tensor) : keeps_files (new_variable t).
Proof. unfold new_variable. files_direct. Qed.

Lemma files_initialise (i : initializer) (sh : list nat) : keeps_files (initialise i sh).
Proof. unfold initialise. destruct i; files_direct. Qed.

(** Methods are sequences of primitives. *)
Ltac files_method :=
  repeat first
    [ match goal with
      | |- keeps_files (_ ≫= _) => apply files_bind; [| intros ?]
      | |- keeps_files (match ?x with _ => _ end) => destruct x
      end
    | apply files_GradientTape | apply files_getitem | apply files_tile
    | apply files_sample_noise | apply files_concat1 | apply files_call
    | apply files_reshape | apply files_watch | apply files_call_discriminator
    | apply files_add | apply files_reduce_mean | apply files_neg
    | apply files_pde_loss | apply files_bc_loss | apply files_tape_exit
    | apply files_gradient | apply files_index | apply files_apply_gradients
    | apply files_del | apply files_new_variable | apply files_initialise
    | apply files_log | apply files_lift | apply files_raise | apply files_ret ].

Lemma files_loss (self : Generator) (fake_output : Tensor) (h : nat)
    (terms : gmap string Tensor) :
  keeps_files (_loss self fake_output h terms).
Proof. unfold _loss. files_method. Qed.

Lemma files_add_layer (model : Model) (l : LayerSpec) : keeps_files (add model l).
Proof. unfold add. files_method. Qed.

Lemma files_load_layers (ss : list SavedLayer) : keeps_files (load_layers ss).
Proof.
  induction ss as [|s ss IH]; cbn [load_layers]; [apply files_ret|].
  apply files_bind; [unfold load_layer; files_method|]. intros l.
  apply files_bind; [exact IH|]. intros ls. apply files_ret.
Qed.

Lemma files_load_model (path : list string) : keeps_files (load_model path).
Proof.
  unfold load_model. apply files_bind; [apply files_log|]. intros _.
  intros rt m rt' Hrun.
  rewrite (bind_ok _ _ _ _ _ (get_run _)) in Hrun.
  destruct (files rt !! path) as [sm|]; [|done].
  apply bind_inv in Hrun as (ls & rt1 & Hls & Hret).
  injection Hret as _ <-. by eapply files_load_layers.
Qed.

(** X10: of all the methods only [save] writes to the file system: the
    constructor, [__call__], [generate], [step] and [load] return with the
    files they found. *)
Theorem only_save_writes_files (self : Generator) :
  (∀ input_shape, keeps_files (__init__ input_shape)) ∧
  (∀ X z, keeps_files (__call__ self X z)) ∧
  (∀ X m, keeps_files (generate self X m)) ∧
  (∀ inputs D b, keeps_files (step self inputs D b)) ∧
  (∀ dir, keeps_files (load self dir)).
Proof.
  split_and!.
  - intros input_shape. unfold __init__, _model.
    repeat first
      [ match goal with |- keeps_files (_ ≫= _) => apply files_bind; [| intros ?] end
      | apply files_add_layer | apply files_ret ].
  - intros X z. unfold __call__. files_method.
  - intros X m. unfold generate. files_method.
  - intros inputs D b. unfold step.
    repeat first
      [ match goal with
        | |- keeps_files (_ ≫= _) => apply files_bind; [| intros ?]
        | |- keeps_files (match ?x with _ => _ end) => destruct x
        end
      | apply files_loss | files_method ].
  - intros dir. unfold load.
    repeat first
      [ match goal with |- keeps_files (_ ≫= _) => apply files_bind; [| intros ?] end
      | apply files_load_model | apply files_ret ].
Qed.

End FileFrame.

Lemma only_save_writes_files_witness :
  ∃ res rt',
    step Example.self Example.inputs Example.the_discriminator 3 Example.rt
    = Ok (res, rt') ∧
    files rt' = files Example.rt.
Proof.
  destruct (step_run Example.self Example.inputs Example.the_discriminator 3 Example.rt
              Example.X_u Example.X_f 2 1 1 1)
    as (? & ? & ? & ? & ? & ? & ? & ? & ? & ? & rt' & Hrun);
    try apply example_step_ready.
  cbv zeta in Hrun. destruct Hrun as (_ & _ & _ & _ & _ & _ & _ & _ & _ & _ & Hrun & _).
  destruct (@only_save_writes_files Example.arith_Z Example.collaborators Example.self)
    as (_ & _ & _ & Hstep & _).
  eexists _, rt'. split; [exact Hrun|]. exact (Hstep _ _ _ _ _ _ Hrun).
Defined.

(** ** The noise sampler is advanced draw by draw *)

Section SamplerState.
Context `{Arith} `{!Collaborators}.

(** X11: a step draws twice from the sampler, one draw after the other: the
    collocation noise comes from the state the data draw left, and the step
    leaves the state of the second draw.  [generate] draws once, and
    [__call__] leaves the sampler alone. *)
Theorem sampler_is_threaded (self : Generator) (inputs : gmap string Tensor)
    (D : Discriminator) (b m : nat) (rt : Runtime) (X_u X_f z : Tensor)
    (n_u n_f d k : nat) :
  step_ready self inputs b rt X_u X_f n_u n_f d k →
  shape z = [n_u; k] → 0 < m → 0 < n_u →
  let first := noise_draw (noise_sampler rt) n_u b in
  let second := noise_draw first.2 n_f 100 in
  (∃ res rt',
     step self inputs D b rt = Ok (res, rt') ∧
     noise_sampler rt' = second.2 ∧
     noise_calls (trace rt') = noise_calls (trace rt) ++ [(n_u, b); (n_f, 100)]) ∧
  (∃ res rt',
     generate self X_u m rt = Ok (res, rt') ∧
     noise_sampler rt' = (noise_draw (noise_sampler rt) n_u m).2) ∧
  (∃ res rt',
     __call__ self X_u z rt = Ok (res, rt') ∧ noise_sampler rt' = noise_sampler rt).
Proof.
  intros (HXu & HXf & HsXu & HsXf & Hb & Hnoise & Hlosses & Hok) Hz Hm Hn. cbv zeta.
  split_and!.
  - destruct (step_run self inputs D b rt X_u X_f n_u n_f d k
                HXu HXf HsXu HsXf Hb Hnoise Hlosses Hok)
      as (? & ? & ? & ? & ? & ? & ? & ? & ? & ? & rt' & Hrun).
    cbv zeta in Hrun.
    destruct Hrun as (_ & _ & _ & _ & _ & _ & _ & _ & _ & _ & Hrun & Htr & _ & _ & Hns & _).
    eexists _, rt'. split; [exact Hrun|]. split; [exact Hns|].
    unfold noise_calls. by rewrite Htr, !omap_app.
  - destruct (generate_run self X_u m n_u d k rt Hok Hnoise HsXu Hm Hn)
      as (? & ? & ? & ? & rt' & _ & _ & _ & _ & Hrun & _ & _ & _ & Hns).
    eexists _, rt'. split; [exact Hrun | exact Hns].
  - destruct (call_method_run self X_u z n_u d k rt Hok HsXu Hz)
      as (? & ? & ? & rt' & _ & _ & _ & Hrun & _ & _ & _ & Hns).
    eexists _, rt'. split; [exact Hrun | exact Hns].
Qed.

End SamplerState.

Lemma sampler_is_threaded_witness :
  ∃ res rt',
    step Example.self Example.inputs Example.the_discriminator 3 Example.rt
    = Ok (res, rt') ∧
    noise_sampler rt' = S (S (noise_sampler Example.rt)).
Proof.
  destruct (sampler_is_threaded Example.self Example.inputs Example.the_discriminator
              3 2 Example.rt Example.X_u Example.X_f Example.z_u 2 1 1 1
              example_step_ready eq_refl)
    as [(res & rt' & Hrun & Hns & _) _]; [lia..|].
  exists res, rt'. split; [exact Hrun | exact Hns].
Defined.
